(** * Aixact AI: evidence aggregation and truth scoring

    A shallow embedding of the decision logic of [freeFactCheck.js]
    (class [FreeFactChecker]) and of the [/api/analyze] handler of
    [server.js], together with the properties the specification states
    about them.

    Conventions of the embedding.
    - JavaScript strings are [string]s of 8-bit characters; the model is
      exact on ASCII text ([toLowerCase], [trim] and [\s] only touch ASCII
      letters and ASCII white space).
    - A finite JavaScript number is an exact rational [Q]: arithmetic is
      carried out without rounding error.  The sentiment and the confidence
      of the fact checker can be [NaN] and have the type [num], which adds
      that value.  Where the code formats a number with [toFixed], a value
      that is an exact tie in rational arithmetic is a double on one side of
      the tie in the code: the direction is a field of [World].
    - Everything the code obtains from libraries or from the network
      (tokenizer and stop-word removal, sentiment analyser, regular
      expression matches, the URL parser, every [fetch]) is a field of the
      record [World]; the theorems quantify over all worlds, and the
      worlds of the module [Worlds] serve to evaluate the model.
    - Network calls are recorded in a trace of [Call]s, and a thrown
      exception is a value [Throw] of the type [result]. *)

From Stdlib Require Import String Ascii List ZArith QArith Qround Qabs Qminmax Lqa Lia Bool.
From Stdlib Require Import Permutation Sorted.
From stdpp Require Import gmap strings.
Import ListNotations.
Open Scope string_scope.

(** ** JavaScript primitives *)

Module JS.

(** *** Exceptions *)

Inductive result (A : Type) : Type :=
| Ok (a : A)
| Throw (e : string).
Arguments Ok {A} a.
Arguments Throw {A} e.

(** [try { body } catch { handler }] *)
Definition try_catch {A} (body : result A) (handler : result A) : result A :=
  match body with
  | Ok a => Ok a
  | Throw _ => handler
  end.

Definition rbind {A B} (r : result A) (k : A -> result B) : result B :=
  match r with
  | Ok a => k a
  | Throw e => Throw e
  end.

(** *** Strings *)

Definition isUpper (c : ascii) : bool :=
  let n := nat_of_ascii c in (65 <=? n)%nat && (n <=? 90)%nat.

Definition toLowerChar (c : ascii) : ascii :=
  if isUpper c then ascii_of_nat (nat_of_ascii c + 32) else c.

Fixpoint toLowerCase (s : string) : string :=
  match s with
  | EmptyString => EmptyString
  | String c s' => String (toLowerChar c) (toLowerCase s')
  end.

(** [s.includes(sub)] *)
Fixpoint includes (s sub : string) : bool :=
  if String.prefix sub s then true
  else match s with
       | EmptyString => false
       | String _ s' => includes s' sub
       end.

Definition startsWith (s p : string) : bool := String.prefix p s.

Definition endsWith (s p : string) : bool :=
  (String.length p <=? String.length s)%nat
  && String.eqb (substring (String.length s - String.length p) (String.length p) s) p.

(** white space of [\s] and of [trim], ASCII part *)
Definition isWhitespace (c : ascii) : bool :=
  let n := nat_of_ascii c in
  ((9 <=? n)%nat && (n <=? 13)%nat) || (n =? 32)%nat.

Fixpoint trimStart (s : string) : string :=
  match s with
  | EmptyString => EmptyString
  | String c s' => if isWhitespace c then trimStart s' else s
  end.

Fixpoint trimEnd (s : string) : string :=
  match s with
  | EmptyString => EmptyString
  | String c s' =>
      let r := trimEnd s' in
      if isWhitespace c && String.eqb r EmptyString then EmptyString else String c r
  end.

Definition trim (s : string) : string := trimEnd (trimStart s).

(** [s.split(/\s+/)] *)
Fixpoint split_ws_from (s cur : string) (inws : bool) : list string :=
  match s with
  | EmptyString => [cur]
  | String c s' =>
      if isWhitespace c
      then if inws then split_ws_from s' cur true
           else cur :: split_ws_from s' EmptyString true
      else split_ws_from s' (cur ++ String c EmptyString) false
  end.

Definition split_ws (s : string) : list string := split_ws_from s EmptyString false.

(** [s.replace(/^p\s+/, '')] for a literal [p] *)
Definition replace_prefix_ws (p s : string) : string :=
  if String.prefix p s then
    let rest := substring (String.length p) (String.length s - String.length p) s in
    match rest with
    | String c _ => if isWhitespace c then trimStart rest else s
    | EmptyString => s
    end
  else s.

(** [s.replace(/\?$/, '')] *)
Definition replace_final_question (s : string) : string :=
  if endsWith s "?" then substring 0 (String.length s - 1) s else s.

(** [s.replace(/\s+/g, '_')] *)
Fixpoint replace_ws_runs (s : string) (inws : bool) : string :=
  match s with
  | EmptyString => EmptyString
  | String c s' =>
      if isWhitespace c
      then if inws then replace_ws_runs s' true
           else String "_" (replace_ws_runs s' true)
      else String c (replace_ws_runs s' false)
  end.

(** [[...new Set(l)]]: first occurrences, in order *)
Fixpoint dedupe_from (seen : gset string) (l : list string) : list string :=
  match l with
  | [] => []
  | x :: l' =>
      if bool_decide (x ∈ seen) then dedupe_from seen l'
      else x :: dedupe_from ({[x]} ∪ seen) l'
  end.

Definition dedupe (l : list string) : list string := dedupe_from ∅ l.

(** truthiness of a string: [!s] is [true] exactly for the empty string *)
Definition falsy (s : string) : bool := String.eqb s EmptyString.

(** *** Numbers *)

Definition Math_abs (x : Q) : Q := Qabs x.
Definition Math_min (x y : Q) : Q := Qmin x y.
Definition Math_max (x y : Q) : Q := Qmax x y.

Definition geq (x y : Q) : bool := Qle_bool y x.   (* x >= y *)
Definition leq (x y : Q) : bool := Qle_bool x y.   (* x <= y *)
Definition gt (x y : Q) : bool := negb (Qle_bool x y).
Definition lt (x y : Q) : bool := negb (Qle_bool y x).

Definition of_nat (n : nat) : Q := inject_Z (Z.of_nat n).

(** A number that may be [NaN]: a finite number, or [NaN]. *)
Inductive num : Type :=
| Num (q : Q)
| NaN.

Definition lift1 (f : Q -> Q) (x : num) : num :=
  match x with
  | Num a => Num (f a)
  | NaN => NaN
  end.

Definition lift2 (f : Q -> Q -> Q) (x y : num) : num :=
  match x, y with
  | Num a, Num b => Num (f a b)
  | _, _ => NaN
  end.

(** [Math.abs], [Math.min], [Math.max], [*], [-] and [+] where an operand
    may be [NaN]: the result is then [NaN]. *)
Definition nan_abs : num -> num := lift1 Qabs.
Definition nan_min : num -> num -> num := lift2 Qmin.
Definition nan_max : num -> num -> num := lift2 Qmax.
Definition nan_mul : num -> num -> num := lift2 Qmult.
Definition nan_sub : num -> num -> num := lift2 Qminus.
Definition nan_add : num -> num -> num := lift2 Qplus.

(** [x <= y]: false as soon as an operand is [NaN]. *)
Definition num_le (x y : num) : Prop :=
  match x, y with
  | Num a, Num b => (a <= b)%Q
  | _, _ => False
  end.

(** [x || d] on numbers: [0] and [NaN] are falsy *)
Definition num_or (x : num) (d : Q) : Q :=
  match x with
  | Num a => if Qeq_bool a 0 then d else a
  | NaN => d
  end.

(** [Number(x.toFixed(d))]: the multiple of [10^-d] nearest to [x].  When
    [x] is an exact tie between two multiples, the double of the code lies
    on the tie or on one side of it, and [tieUp] tells whether the result
    is the one of larger magnitude. *)
Definition toFixed (tieUp : bool) (d : nat) (x : Q) : Q :=
  let p := inject_Z (10 ^ Z.of_nat d) in
  let scaled := (Qabs x * p)%Q in
  let n := Qfloor scaled in
  let frac := (scaled - inject_Z n)%Q in
  let n := if Qeq_bool frac (1 # 2) then (if tieUp then n + 1 else n)%Z
           else if Qle_bool frac (1 # 2) then n else (n + 1)%Z in
  if Qle_bool 0 x then (inject_Z n / p)%Q else (- (inject_Z n / p))%Q.

(** [s.split(sep)[0]]: the text before the first [sep] *)
Fixpoint before_first (sep s : string) : string :=
  if String.prefix sep s then EmptyString
  else match s with
       | EmptyString => EmptyString
       | String c s' => String c (before_first sep s')
       end.

End JS.

Import JS.

(** ** External collaborators and effects *)

(** What [new URL(s)] exposes to the code. *)
Record URL := { protocol : string; hostname : string }.

(** One element of [data.query.search] of the encyclopedia search API. *)
Record WikiHit := { hit_title : string; hit_snippet : string }.

(** The instant-answer payload; an absent field is the empty string. *)
Record DDGAnswer := { AbstractText : string; AbstractURL : string; Heading : string }.

(** One element of [data.RelatedTopics]. *)
Record RelatedTopic := { Text : string; FirstURL : string }.

(** One element of [data.articles] of the news API. *)
Record NewsArticle :=
  { source_name : string; article_title : string; article_url : string; description : string }.

(** Libraries, environment and network, as the code sees them.  A network
    field is [None] when the [fetch], the [json()] call or an access to the
    payload throws; an absent string of a payload is the empty string.
    [fetchArticle] is the readable text of a page, empty on any failure.
    The sentiment analyser returns a finite number, or [NaN] (it divides by
    the number of tokens, which can be zero). *)
Record World := {
  (* natural, stopword, apos-to-lex-form *)
  preprocessText : string -> string;
  getSentiment : string -> option num;    (* [None]: the analyser throws *)
  (* the three regular expressions of detectLogicalFallacies *)
  test_ad_hominem : string -> bool;
  test_false_dilemma : string -> bool;
  test_appeal_to_authority : string -> bool;
  (* built-ins *)
  parseURL : string -> option URL;
  encodeURIComponent : string -> string;
  (* floating point: whether [x.toFixed(d)] takes the larger magnitude when
     the exact value of [x] is a tie between two [d]-decimal numbers *)
  tieRoundsUp : nat -> Q -> bool;
  (* process.env *)
  NEWSAPI_KEY : string;
  (* network of freeFactCheck.js *)
  wikiSearch : string -> option (list WikiHit);
  ddgInstant : string -> option DDGAnswer;
  fetchArticle : string -> string;
  (* network of server.js *)
  openSearch : string -> option (string * string);
  wikiSummary : string -> option (string * string);
  ddgRelated : string -> option (list RelatedTopic);
  newsApi : string -> option (list NewsArticle);
  fetchUrl : string -> option (string * string)
}.

(** Outbound requests. *)
Inductive Call : Type :=
| CWikiSearch (q : string)      (* searchEvidence, encyclopedia search *)
| CDDGInstant (q : string)      (* searchEvidence, instant answer *)
| CArticle (url : string)       (* fetchArticleText *)
| COpenSearch (q : string)      (* fetchWikipediaEvidence, opensearch *)
| CWikiSummary (t : string)     (* fetchWikipediaEvidence, page summary *)
| CDDGRelated (q : string)      (* fetchDuckDuckGoEvidence *)
| CNewsApi (q : string)         (* fetchNewsApiEvidence *)
| CFetchUrl (url : string).     (* fetchHtml *)

(** A call that asks a source for evidence about a query. *)
Definition is_retrieval (c : Call) : bool :=
  match c with
  | CWikiSearch _ | CDDGInstant _ | COpenSearch _ | CWikiSummary _
  | CDDGRelated _ | CNewsApi _ => true
  | CArticle _ | CFetchUrl _ => false
  end.


(** Code that performs requests and cannot throw: a value and the trace. *)
Module Eff.

Definition IO (A : Type) : Type := (A * list Call)%type.

Definition ret {A} (a : A) : IO A := (a, []).

Definition bind {A B} (m : IO A) (k : A -> IO B) : IO B :=
  let (a, t) := m in
  let (b, t') := k a in
  (b, (t ++ t')%list).

Definition call (c : Call) : IO unit := (tt, [c]).

Definition value {A} (m : IO A) : A := fst m.
Definition trace {A} (m : IO A) : list Call := snd m.

Definition fmap {A B} (f : A -> B) (m : IO A) : IO B := (f (fst m), snd m).

(** Code that performs requests and may throw. *)
Definition IOE (A : Type) : Type := IO (result A).

Definition hret {A} (a : A) : IOE A := ret (Ok a).

Definition hbind {A B} (m : IOE A) (k : A -> IOE B) : IOE B :=
  bind m (fun r => match r with
                   | Ok a => k a
                   | Throw e => ret (Throw e)
                   end).

Definition liftIO {A} (m : IO A) : IOE A := bind m (fun a => ret (Ok a)).
Definition liftR {A} (r : result A) : IOE A := ret r.
Definition throw {A} (e : string) : IOE A := ret (Throw e).

End Eff.

Declare Scope io_scope.
Delimit Scope io_scope with io.
Notation "x <- m ;; k" := (Eff.bind m (fun x => k))
  (at level 100, m at next level, right associativity) : io_scope.
Notation "x <-! m ;; k" := (Eff.hbind m (fun x => k))
  (at level 100, m at next level, right associativity) : io_scope.

(** ** freeFactCheck.js *)

Module FreeFactChecker.

Import Eff.

Definition MAX_ARTICLE_CHARS : nat := 4000.

Definition truncate (s : string) (n : nat) : string :=
  if falsy s then EmptyString else if (n <? String.length s)%nat then substring 0 n s else s.

(** An element of [results] in [searchEvidence].  The field [relevance]
    is left out: nothing reads it. *)
Record Evidence := {
  source : string;
  title : string;
  snippet : string;
  url : string;
  fullText : option string
}.

Definition set_fullText (e : Evidence) (t : string) : Evidence :=
  {| source := source e; title := title e; snippet := snippet e;
     url := url e; fullText := Some t |}.

(** [truthDetails.stats]; a field the code leaves out reads as [0]
    through [stats.x || 0].  No code path sets [stats.neutral]. *)
Record Stats := { supports : nat; refutes : nat }.

(** What [computeTruthScore] returns. *)
Record TruthAnalysis := { ta_truthScore : Q; stats : Stats }.

(** [truthDetails]: the whole analysis in the evidence-based path, only
    [stats] in a direct verdict. *)
Record TruthDetails := { td_truthScore : option Q; td_stats : Stats }.

(** The object [checkClaim] resolves to (without [timestamp]). *)
Record FCResult := {
  claim : string;
  processedClaim : string;
  sentiment : num;
  fallacies : list string;
  evidence : list Evidence;
  truthScore : Q;
  truthDetails : TruthDetails;
  confidence : num;
  verdict : string;
  explanation : string
}.

Record NationalityRule := { entity : string; trueNat : string; wrong : list string }.

Definition nationalityRules : list NationalityRule :=
  [ {| entity := "narendra modi"; trueNat := "indian";
       wrong := ["american"; "german"; "british"; "french"] |} ].

Definition nonVegItems : list string :=
  ["chicken"; "fish"; "mutton"; "pork"; "beef"; "egg"; "eggs"].

Definition makeDirectVerdict (claim verdict : string) (confidence : Q) (explanation : string)
  : FCResult :=
  let isFalse := String.eqb verdict "FALSE" in
  {| claim := claim;
     processedClaim := claim;
     sentiment := Num 0;
     fallacies := [];
     evidence := [];
     truthScore := if isFalse then 0.98%Q else 0.02%Q;
     truthDetails :=
       {| td_truthScore := None;
          td_stats := if isFalse then {| supports := 0; refutes := 1 |}
                      else {| supports := 1; refutes := 0 |} |};
     confidence := Num confidence;
     verdict := verdict;
     explanation := explanation |}.

(** The body of the loop over [nationalityRules]: [Some] is a [return]. *)
Definition nationalityRule_step (raw : string) (rule : NationalityRule) : option FCResult :=
  let entityMatch :=
    includes (toLowerCase raw) "narendra" && includes (toLowerCase raw) "modi" in
  if entityMatch then
    match find (fun wrong => includes (toLowerCase raw) wrong) (wrong rule) with
    | Some wrong =>
        Some (makeDirectVerdict raw "FALSE" 0.99%Q
                (entity rule ++ " is " ++ trueNat rule ++ ", not " ++ wrong ++ "."))
    | None =>
        if includes (toLowerCase raw) (trueNat rule)
        then Some (makeDirectVerdict raw "TRUE" 0.99%Q
                     (entity rule ++ " is " ++ trueNat rule ++ "."))
        else None
    end
  else None.

Fixpoint nationality_loop (raw : string) (rules : list NationalityRule) : option FCResult :=
  match rules with
  | [] => None
  | rule :: rest =>
      match nationalityRule_step raw rule with
      | Some r => Some r
      | None => nationality_loop raw rest
      end
  end.

Definition vegetarian_rule (text raw : string) : option FCResult :=
  if includes text "veg" || includes text "vegetarian" then
    match find (fun item => includes (toLowerCase raw) item) nonVegItems with
    | Some item =>
        Some (makeDirectVerdict raw "FALSE" 0.99%Q (item ++ " is not vegetarian."))
    | None => None
    end
  else None.

Definition water_rule (raw : string) : option FCResult :=
  if includes (toLowerCase raw) "water" && includes (toLowerCase raw) "wet"
  then Some (makeDirectVerdict raw "TRUE" 0.99%Q "Water is wet.")
  else None.

(** [null] is [None]. *)
Definition checkKnownFacts (processed raw : string) : option FCResult :=
  let text := toLowerCase processed in
  match nationality_loop raw nationalityRules with
  | Some r => Some r
  | None =>
      match vegetarian_rule text raw with
      | Some r => Some r
      | None => water_rule raw
      end
  end.

Definition generateSearchQueries (claim : string) : list string :=
  [ claim;
    claim ++ " fact check";
    claim ++ " site:wikipedia.org";
    claim ++ " news";
    claim ++ " myth";
    claim ++ " scientific study" ].

(** [s.replace(/<[^>]*>/g, '')] *)
Fixpoint strip_tags_from (s : string) (intag : bool) : string :=
  match s with
  | EmptyString => EmptyString
  | String c s' =>
      if intag
      then if Ascii.eqb c ">" then strip_tags_from s' false else strip_tags_from s' true
      else if Ascii.eqb c "<" && includes s' ">"
           then strip_tags_from s' true
           else String c (strip_tags_from s' false)
  end.

Definition strip_tags (s : string) : string := strip_tags_from s false.

Definition calculateConfidence (sentiment : num) (fallacies : list string)
                               (evidence : list Evidence) : num :=
  let score := Num 0.5 in
  let score :=
    nan_sub score (nan_min (Num 0.4) (nan_mul (nan_abs sentiment) (Num 0.25))) in
  let score :=
    nan_sub score (nan_min (Num 0.6) (nan_mul (Num (of_nat (length fallacies))) (Num 0.15))) in
  let score := if (0 <? length evidence)%nat then nan_add score (Num 0.2) else score in
  nan_max (Num 0.01) (nan_min (Num 0.99) score).

Definition evidence_text (item : Evidence) : string :=
  toLowerCase (title item ++ " " ++ snippet item ++ " "
               ++ match fullText item with
                  | Some t => t         (* [t || ''] is [t] also when [t] is empty *)
                  | None => EmptyString
                  end).

Definition is_refuting (text : string) : bool :=
  includes text "false" || includes text "not true" || includes text "misinformation".

Definition is_supporting (text : string) : bool :=
  includes text "true" || includes text "confirmed".

(** One iteration of the loop of [computeTruthScore] on [(supports, refutes)]. *)
Definition truth_step (acc : nat * nat) (item : Evidence) : nat * nat :=
  let '(supports, refutes) := acc in
  let text := evidence_text item in
  let refutes := if is_refuting text then S refutes else refutes in
  let supports := if is_supporting text then S supports else supports in
  (supports, refutes).

Definition computeTruthScore (claim : string) (evidence : list Evidence) : TruthAnalysis :=
  if (length evidence =? 0)%nat then
    {| ta_truthScore := 0.5%Q; stats := {| supports := 0; refutes := 0 |} |}
  else
    let '(supports, refutes) := fold_left truth_step evidence (0, 0)%nat in
    let total := (supports + refutes)%nat in
    if (total =? 0)%nat then
      {| ta_truthScore := 0.5%Q; stats := {| supports := supports; refutes := refutes |} |}
    else
      {| ta_truthScore := (of_nat refutes / of_nat total)%Q;
         stats := {| supports := supports; refutes := refutes |} |}.

Definition determineVerdictFromTruthScore (score : Q) : string :=
  if gt score 0.6 then "FALSE"
  else if lt score 0.4 then "TRUE"
  else "NEEDS VERIFICATION".

Definition buildExplanation (verdict : string) : string :=
  if String.eqb verdict "TRUE" then "Multiple reliable sources support this claim."
  else if String.eqb verdict "FALSE" then "Reliable sources contradict this claim."
  else "Evidence is inconclusive or mixed.".

Section WithWorld.

Context (w : World).

(** [try { return getSentiment(tokenize(text)) } catch { return 0 }] *)
Definition analyzeSentiment (text : string) : num :=
  match getSentiment w text with
  | Some s => s
  | None => Num 0
  end.

Definition detectLogicalFallacies (text : string) : list string :=
  (if test_ad_hominem w text then ["ad hominem"] else [])
  ++ (if test_false_dilemma w text then ["false dilemma"] else [])
  ++ (if test_appeal_to_authority w text then ["appeal to_authority"] else []).

(** [new URL(s)] *)
Definition new_URL (s : string) : result URL :=
  match parseURL w s with
  | Some u => Ok u
  | None => Throw "TypeError: Invalid URL"
  end.

Definition highQualityOrgs : list string := ["who.int"; "nih.gov"; "cdc.gov"; "un.org"].

Definition majorNews : list string :=
  [ "bbc."; "reuters."; "apnews."; "nytimes."; "guardian."; "washingtonpost.";
    "wsj."; "ft.com"; "aljazeera."; "bloomberg."; "cnn."; "nbcnews."; "cbsnews.";
    "abcnews."; "indiatoday."; "thehindu."; "hindustantimes."; "indianexpress." ].

Definition socialMedia : list string := ["facebook."; "instagram."; "tiktok."; "whatsapp."].

(** The tier table, applied to the lower-cased [host]. *)
Definition classifyHost (host : string) : Q :=
  if endsWith host ".gov" || endsWith host ".gov.in" || endsWith host ".edu" then 0.95%Q
  else if existsb (includes host) highQualityOrgs then 0.95%Q
  else if includes host "wikipedia.org" then 0.85%Q
  else if existsb (includes host) majorNews then 0.8%Q
  else if existsb (includes host) socialMedia then 0.25%Q
  else 0.5%Q.

Definition classifySourceQuality (url : string) : result Q :=
  if falsy url then Ok 0.4%Q
  else
    rbind (try_catch (rbind (new_URL url) (fun u => Ok (toLowerCase (hostname u))))
                     (Ok (toLowerCase url)))
          (fun host => Ok (classifyHost host)).

Definition fetchArticleText (url : string) : IO string :=
  if falsy url then ret EmptyString
  else (_ <- call (CArticle url);;
        ret (truncate (fetchArticle w url) MAX_ARTICLE_CHARS))%io.

(** The loop state of [searchEvidence]: the set [seen] and [results]. *)
Definition SearchState : Type := (gset string * list Evidence)%type.

Definition addWikiHit (st : SearchState) (item : WikiHit) : SearchState :=
  let '(seen, results) := st in
  let url := "https://en.wikipedia.org/wiki/"
             ++ encodeURIComponent w (replace_ws_runs (hit_title item) false) in
  if bool_decide (url ∈ seen) then st
  else ({[url]} ∪ seen,
        (results ++ [ {| source := "Wikipedia";
                         title := hit_title item;
                         snippet := strip_tags (hit_snippet item);
                         url := url;
                         fullText := None |} ])%list).

Definition wikiStep (q : string) (st : SearchState) : IO SearchState :=
  (_ <- call (CWikiSearch q);;
   match wikiSearch w q with
   | Some search => ret (fold_left addWikiHit (firstn 3 search) st)
   | None => ret st
   end)%io.

Definition addDDG (st : SearchState) (data : DDGAnswer) : SearchState :=
  let '(seen, results) := st in
  if falsy (AbstractText data) then st
  else
    let url := AbstractURL data in
    if bool_decide (url ∈ seen) then st
    else ({[url]} ∪ seen,
          (results ++ [ {| source := "DuckDuckGo";
                           title := Heading data;
                           snippet := AbstractText data;
                           url := url;
                           fullText := None |} ])%list).

Definition ddgStep (q : string) (st : SearchState) : IO SearchState :=
  (_ <- call (CDDGInstant q);;
   match ddgInstant w q with
   | Some data => ret (addDDG st data)
   | None => ret st
   end)%io.

(** [for (const q of queries) { ...; if (results.length > 20) break; }] *)
Fixpoint searchLoop (queries : list string) (st : SearchState) : IO SearchState :=
  match queries with
  | [] => ret st
  | q :: rest =>
      (st1 <- wikiStep q st;;
       st2 <- ddgStep q st1;;
       if (20 <? length (snd st2))%nat then ret st2 else searchLoop rest st2)%io
  end.

Definition enrichItem (item : Evidence) : IO Evidence :=
  (text <- fetchArticleText (url item);;
   ret (if falsy text then item else set_fullText item text))%io.

Fixpoint enrichAll (items : list Evidence) : IO (list Evidence) :=
  match items with
  | [] => ret []
  | item :: rest =>
      (item' <- enrichItem item;;
       rest' <- enrichAll rest;;
       ret (item' :: rest'))%io
  end.

Definition searchEvidence (claim : string) : IO (list Evidence) :=
  (let queries := generateSearchQueries claim in
   st <- searchLoop queries (∅, []);;
   let results := snd st in
   top <- enrichAll (firstn 5 results);;
   ret (top ++ skipn 5 results)%list)%io.

Definition checkClaim (claim : string) : IO FCResult :=
  let processed := preprocessText w claim in
  match checkKnownFacts processed claim with
  | Some knownFact => ret knownFact
  | None =>
      (let sentiment := analyzeSentiment processed in
       let fallacies := detectLogicalFallacies processed in
       evidence <- searchEvidence claim;;
       let truthAnalysis := computeTruthScore claim evidence in
       let truthScore := ta_truthScore truthAnalysis in
       let confidence := calculateConfidence sentiment fallacies evidence in
       let verdict := determineVerdictFromTruthScore truthScore in
       let explanation := buildExplanation verdict in
       ret {| claim := claim;
              processedClaim := processed;
              sentiment := sentiment;
              fallacies := fallacies;
              evidence := evidence;
              truthScore := truthScore;
              truthDetails := {| td_truthScore := Some truthScore;
                                 td_stats := stats truthAnalysis |};
              confidence := confidence;
              verdict := verdict;
              explanation := explanation |})%io
  end.

End WithWorld.

End FreeFactChecker.

(** ** server.js *)

Module Server.

Import Eff.
Import FreeFactChecker.

Definition MAX_MODEL_INPUT : nat := 4000.

(** Evidence in the handler's standard format.  Only the fields read
    after the merge are kept ([source_type], [credibility] and [verdict]
    are written and never read).  An absent [url] is the empty string. *)
Record Ev := { ev_url : string; ev_source : string; ev_title : string; ev_summary : string }.

Record Input := { original : string; normalized : string; intent : string }.

Record Meta := { meta_source : string; meta_url : string }.

(** The fields of the JSON answer that the decision logic produces. *)
Record Response := {
  resp_query : string;
  resp_claim : string;
  final_verdict : string;
  final_confidence : Q;
  source_credibility_score : Q;
  cross_source_agreement : Q;
  reasoning : string;
  resp_evidence : list Ev
}.

Inductive HttpResponse : Type :=
| Json (r : Response)
| Error (status : nat) (message : string).

(** The field [query] of the parsed JSON body, as far as the handler looks
    at it: the content of an array or of an object is never read. *)
Inductive JSValue : Type :=
| JUndefined                (* no body, or no field [query] *)
| JNull
| JBool (b : bool)
| JNumber (x : Q)
| JString (s : string)
| JArray
| JObject.

Definition truthy (v : JSValue) : bool :=
  match v with
  | JUndefined | JNull => false
  | JBool b => b
  | JNumber x => negb (Qeq_bool x 0)
  | JString s => negb (falsy s)
  | JArray | JObject => true
  end.

(** [v || d] *)
Definition js_or (v d : JSValue) : JSValue := if truthy v then v else d.

(** [v.trim()]: only a string has the method. *)
Definition call_trim (v : JSValue) : result string :=
  match v with
  | JString s => Ok (trim s)
  | _ => Throw "TypeError: (req.body?.query || '').trim is not a function"
  end.

(** What becomes of a request: the handler sends a response, or an
    exception leaves it and it sends none. *)
Inductive Outcome : Type :=
| Sent (r : HttpResponse)
| Uncaught (e : string).

(** A JavaScript [Map] with string keys: the entries in insertion order. *)
Definition JSMap (V : Type) : Type := list (string * V).

Definition map_has {V} (m : JSMap V) (k : string) : bool :=
  existsb (fun kv => String.eqb (fst kv) k) m.

Fixpoint map_set {V} (m : JSMap V) (k : string) (v : V) : JSMap V :=
  match m with
  | [] => [(k, v)]
  | (k', v') :: m' => if String.eqb k' k then (k', v) :: m' else (k', v') :: map_set m' k v
  end.

Definition map_values {V} (m : JSMap V) : list V := map snd m.

(** The callback of the [forEach] in [mergeEvidence]. *)
Definition mergeStep (map : JSMap Ev) (ev : Ev) : JSMap Ev :=
  if negb (falsy (ev_url ev)) && negb (map_has map (ev_url ev))
  then map_set map (ev_url ev) ev
  else map.

Definition mergeEvidence (a b : list Ev) : list Ev :=
  let map := fold_left mergeStep (a ++ b)%list [] in
  map_values map.

Definition buildRelevanceKeywords (claim : string) : list string :=
  let c := List.filter (fun x => (3 <? String.length x)%nat) (split_ws (toLowerCase claim)) in
  let c := if includes (toLowerCase claim) "modi"
           then (c ++ ["narendra"; "modi"; "india"; "indian"; "prime minister";
                       "nationality"; "citizen"])%list
           else c in
  dedupe c.

Definition isRelevantEvidence (item : Ev) (keywords : list string) : bool :=
  let body := toLowerCase (ev_title item ++ " " ++ ev_summary item) in
  existsb (fun k => includes body k) keywords.

Definition extractCanonicalClaim (input : Input) : string :=
  let t := trim (toLowerCase (normalized input)) in
  if startsWith t "is " then trim (replace_final_question (replace_prefix_ws "is" t))
  else if startsWith t "are " then trim (replace_final_question (replace_prefix_ws "are" t))
  else normalized input.

(** [(x || 0)] on the counters of [stats]; [stats.neutral] is never set. *)
Definition crossSourceAgreementOf (stats : Stats) : Q :=
  let neutral := 0%nat in
  let totalStats := (supports stats + refutes stats + neutral)%nat in
  if (0 <? totalStats)%nat then
    let decisive := (supports stats + refutes stats)%nat in
    (of_nat decisive / of_nat totalStats)%Q
  else 0.5%Q.

Definition fcVerdictOf (fc : FCResult) : string :=
  if falsy (verdict fc) then "NEEDS_VERIFICATION" else verdict fc.

(** [fc.confidence || 0.5] *)
Definition fcConfidenceOf (fc : FCResult) : Q := num_or (confidence fc) 0.5.

Definition isStrongFC (fc : FCResult) : bool :=
  let fcVerdict := fcVerdictOf fc in
  let fcConfidence := fcConfidenceOf fc in
  ((String.eqb fcVerdict "TRUE" || String.eqb fcVerdict "FALSE") && geq fcConfidence 0.80)
  || geq (truthScore fc) 0.90
  || leq (truthScore fc) 0.10.

(** Step 9 of the handler: [(finalVerdict, finalConfidence)]. *)
Definition finalDecision (w : World) (fc : FCResult)
                         (crossSourceAgreement sourceCredibilityScore : Q) : string * Q :=
  let fcVerdict := fcVerdictOf fc in
  let fcConfidence := fcConfidenceOf fc in
  if isStrongFC fc then (fcVerdict, fcConfidence)
  else
    let finalVerdict :=
      if geq crossSourceAgreement 0.70 || geq (truthScore fc) 0.70 then "TRUE"
      else if leq crossSourceAgreement 0.30 || leq (truthScore fc) 0.30 then "FALSE"
      else "NEEDS VERIFICATION" in
    let modelConfidence := fcConfidence in
    let calibrated :=
      Math_max (0.7 * Math_max (Math_abs (truthScore fc - 0.5) * 2) crossSourceAgreement)
               (0.5 * sourceCredibilityScore) in
    let calibrated := ((calibrated + modelConfidence) / 2)%Q in
    (finalVerdict,
     Math_max 0.01 (Math_min 0.99 (toFixed (tieRoundsUp w 2 calibrated) 2 calibrated))).

Section WithWorld.

Context (w : World).

Definition isLikelyUrl (value : string) : bool :=
  match new_URL w value with
  | Ok u => startsWith (protocol u) "http:" || startsWith (protocol u) "https:"
  | Throw _ => false
  end.

Definition parseUserInput (text : string) : Input :=
  let isUrl := isLikelyUrl text in
  {| original := text;
     normalized := text;
     intent := if isUrl then "url_article_verification"
               else if endsWith text "?" then "question_verification"
               else "factual_verification" |}.

Definition fetchUrlText (url : string) : IOE (string * string) :=
  (_ <- call (CFetchUrl url);;
   match fetchUrl w url with
   | Some out => hret out
   | None => throw "fetch failed"
   end)%io.

Definition resolveQueryText (input : string) : IOE (string * Meta) :=
  if isLikelyUrl input then
    (out <-! fetchUrlText input;;
     if falsy (fst out) then throw "Could not extract readable text from URL."
     else hret (truncate (fst out) MAX_MODEL_INPUT,
                {| meta_source := "url"; meta_url := snd out |}))%io
  else hret (truncate input MAX_MODEL_INPUT, {| meta_source := "text"; meta_url := EmptyString |}).

Definition fetchWikipediaEvidence (query : string) : IO (option Ev) :=
  (_ <- call (COpenSearch query);;
   match openSearch w query with
   | None => ret None
   | Some (title, url) =>
       if falsy title || falsy url then ret None
       else
         _ <- call (CWikiSummary title);;
         match wikiSummary w title with
         | None => ret None
         | Some (dtitle, extract) =>
             if falsy extract then ret None
             else ret (Some {| ev_source := "wikipedia";
                               ev_title := if falsy dtitle then title else dtitle;
                               ev_url := url;
                               ev_summary := extract |})
         end
   end)%io.

Definition fetchDuckDuckGoEvidence (query : string) : IO (list Ev) :=
  (_ <- call (CDDGRelated query);;
   match ddgRelated w query with
   | None => ret []
   | Some topics =>
       ret (map (fun x => {| ev_source := "duckduckgo";
                             ev_title := before_first " - " (Text x);
                             ev_url := FirstURL x;
                             ev_summary := Text x |})
                (firstn 3 (List.filter (fun x => negb (falsy (Text x)) && negb (falsy (FirstURL x)))
                                  topics)))
   end)%io.

Definition fetchNewsApiEvidence (query : string) : IO (list Ev) :=
  if falsy (NEWSAPI_KEY w) then ret []
  else
    (_ <- call (CNewsApi query);;
     match newsApi w query with
     | None => ret []
     | Some articles =>
         ret (map (fun a => {| ev_source := if falsy (source_name a) then "news"
                                            else source_name a;
                               ev_title := article_title a;
                               ev_url := article_url a;
                               ev_summary := description a |})
                  articles)
     end)%io.

Definition gatherEvidence (originalQuery : string) (meta : Meta) : IO (list Ev) :=
  if falsy originalQuery || isLikelyUrl originalQuery || String.eqb (meta_source meta) "url"
  then ret []
  else if (200 <? String.length originalQuery)%nat then ret []
  else
    (wiki <- fetchWikipediaEvidence originalQuery;;
     let out := match wiki with Some e => [e] | None => [] end in
     ddg <- fetchDuckDuckGoEvidence originalQuery;;
     let out := (out ++ ddg)%list in
     news <- (if falsy (NEWSAPI_KEY w) then ret []
              else fetchNewsApiEvidence originalQuery);;
     let out := (out ++ news)%list in
     ret (firstn 5 out))%io.

Definition mapFcEvidence (e : Evidence) : Ev :=
  {| ev_url := url e;
     ev_source := source e;
     ev_title := if falsy (title e) then source e else title e;
     ev_summary := snippet e |}.

(** [sum] of the [reduce] over [filteredEvidence]; [classifySourceQuality]
    is called inside the handler's [try]. *)
Fixpoint credibilitySum (acc : Q) (evs : list Ev) : result Q :=
  match evs with
  | [] => Ok acc
  | ev :: rest =>
      rbind (classifySourceQuality w (ev_url ev))
            (fun c => credibilitySum (acc + c)%Q rest)
  end.

Definition sourceCredibilityScoreOf (filteredEvidence : list Ev) : result Q :=
  if (0 <? length filteredEvidence)%nat then
    rbind (credibilitySum 0 filteredEvidence)
          (fun sum => Ok (sum / of_nat (length filteredEvidence))%Q)
  else Ok 0.5%Q.

(** The body of the [try] of [app.post('/api/analyze')]. *)
Definition analyzeBody (rawInput : string) : IOE Response :=
  (let input := parseUserInput rawInput in
   let claim := extractCanonicalClaim input in
   let canonicalClaim := if falsy claim then original input else claim in
   resolved <-! resolveQueryText canonicalClaim;;
   let meta := snd resolved in
   let shouldGatherExternal := (5 <? String.length canonicalClaim)%nat in
   externalEvidence <-! liftIO (if shouldGatherExternal
                                then gatherEvidence canonicalClaim meta
                                else ret []);;
   fc <-! liftIO (checkClaim w claim);;
   let fcMappedEvidence := map mapFcEvidence (evidence fc) in
   let allEvidence := mergeEvidence fcMappedEvidence externalEvidence in
   let relevanceKeywords := buildRelevanceKeywords canonicalClaim in
   let filteredEvidence :=
     firstn 20 (List.filter (fun e => isRelevantEvidence e relevanceKeywords) allEvidence) in
   sourceCredibilityScore <-! liftR (sourceCredibilityScoreOf filteredEvidence);;
   let crossSourceAgreement := crossSourceAgreementOf (td_stats (truthDetails fc)) in
   let final := finalDecision w fc crossSourceAgreement sourceCredibilityScore in
   hret {| resp_query := rawInput;
           resp_claim := claim;
           final_verdict := fst final;
           final_confidence := snd final;
           source_credibility_score :=
             toFixed (tieRoundsUp w 3 sourceCredibilityScore) 3 sourceCredibilityScore;
           cross_source_agreement :=
             toFixed (tieRoundsUp w 3 crossSourceAgreement) 3 crossSourceAgreement;
           reasoning := if falsy (explanation fc)
                        then "Verdict based on aggregated evidence."
                        else explanation fc;
           resp_evidence := filteredEvidence |})%io.

(** The handler from its second line on, once [rawInput] is computed. *)
Definition respond (rawInput : string) : IO HttpResponse :=
  if falsy rawInput then ret (Error 400 "Query text is required.")
  else
    (r <- analyzeBody rawInput;;
     match r with
     | Ok resp => ret (Json resp)
     | Throw e => ret (Error 502 (if falsy e then "Failed to process." else e))
     end)%io.

(** [app.post('/api/analyze', ...)] on [req.body?.query].  The first line,
    [(req.body?.query || '').trim()], stands before the [try]: what it
    throws is not caught. *)
Definition analyze (query : JSValue) : IO Outcome :=
  match call_trim (js_or query (JString EmptyString)) with
  | Throw e => ret (Uncaught e)
  | Ok rawInput => fmap Sent (respond rawInput)
  end.

End WithWorld.

End Server.

(** ** Concrete worlds

    Instances of [World] on which the model is evaluated.  Their library
    fields are small stand-ins that agree with the real libraries on the
    inputs used below: [lowerLetters] is [preprocessText] with the common
    English stop words and without the rewriting of contractions,
    [neutralSentiment] is the analyser on words without charge, [httpURL]
    parses [http(s)://host/...] and rejects every string without a scheme,
    [percentEncode] is [encodeURIComponent] on ASCII, and [doubleTieUp]
    rounds as [toFixed] does on the double nearest to the exact value. *)

Module Worlds.

Import FreeFactChecker Server.

Definition isLowerLetter (c : ascii) : bool :=
  let n := nat_of_ascii c in (97 <=? n)%nat && (n <=? 122)%nat.

Fixpoint keepLetters (s : string) : string :=
  match s with
  | EmptyString => EmptyString
  | String c s' =>
      if isLowerLetter c || isWhitespace c then String c (keepLetters s') else keepLetters s'
  end.

Definition stopWords : list string :=
  [ "about"; "after"; "all"; "also"; "am"; "an"; "and"; "another"; "any"; "are"; "as";
    "at"; "be"; "because"; "been"; "before"; "being"; "between"; "both"; "but"; "by";
    "came"; "can"; "come"; "could"; "did"; "do"; "each"; "for"; "from"; "get"; "got";
    "has"; "had"; "he"; "have"; "her"; "here"; "him"; "himself"; "his"; "how"; "if";
    "in"; "into"; "is"; "it"; "like"; "make"; "many"; "me"; "might"; "more"; "most";
    "much"; "must"; "my"; "never"; "now"; "of"; "on"; "only"; "or"; "other"; "our";
    "out"; "over"; "said"; "same"; "see"; "should"; "since"; "some"; "still"; "such";
    "take"; "than"; "that"; "the"; "their"; "them"; "then"; "there"; "these"; "they";
    "this"; "those"; "through"; "to"; "too"; "under"; "up"; "very"; "was"; "way"; "we";
    "well"; "were"; "what"; "where"; "which"; "while"; "who"; "with"; "would"; "you";
    "your"; "a"; "i" ].

(** The words of lower-case letters that are no stop words, joined by
    single spaces. *)
Definition lowerLetters (s : string) : string :=
  String.concat " "
    (List.filter (fun t => negb (falsy t) && negb (existsb (String.eqb t) stopWords))
                 (split_ws (keepLetters (toLowerCase s)))).

(** The analyser on a text without charged words: the sum 0 divided by the
    number of tokens, which is [NaN] when there is no token. *)
Definition neutralSentiment (text : string) : option num :=
  Some (if falsy (trim text) then NaN else Num 0).

(** The double nearest to a positive rational, ties to even (normal range). *)
Definition nearestDouble (x : Q) : Q :=
  let e := (Z.log2 (Qnum x) - Z.log2 (Zpos (Qden x)))%Z in
  let e := if Qle_bool (2 ^ e) x then e else (e - 1)%Z in
  let ulp := (2 ^ (e - 52))%Q in
  let m := (x / ulp)%Q in
  let n := Qfloor m in
  let frac := (m - inject_Z n)%Q in
  let n := if Qeq_bool frac (1 # 2) then (if Z.even n then n else n + 1)%Z
           else if Qle_bool frac (1 # 2) then n else (n + 1)%Z in
  (inject_Z n * ulp)%Q.

(** The direction of [toFixed] at a tie when the number formatted is the
    double nearest to the exact value: up when that double is not below the
    tie. *)
Definition doubleTieUp (d : nat) (x : Q) : bool :=
  if Qeq_bool x 0 then true else Qle_bool (Qabs x) (nearestDouble (Qabs x)).

Fixpoint takeHost (s : string) : string :=
  match s with
  | EmptyString => EmptyString
  | String c s' =>
      if Ascii.eqb c "/" || Ascii.eqb c "?" || Ascii.eqb c "#" then EmptyString
      else String c (takeHost s')
  end.

Definition httpURL (s : string) : option URL :=
  let parse (scheme : string) :=
    let h := takeHost (substring (String.length scheme + 2)
                                 (String.length s - (String.length scheme + 2)) s) in
    if falsy h then None else Some {| protocol := scheme; hostname := toLowerCase h |} in
  if String.prefix "https://" s then parse "https:"
  else if String.prefix "http://" s then parse "http:"
  else None.

Definition isUnreserved (c : ascii) : bool :=
  let n := nat_of_ascii c in
  ((48 <=? n)%nat && (n <=? 57)%nat) || ((65 <=? n)%nat && (n <=? 90)%nat)
  || ((97 <=? n)%nat && (n <=? 122)%nat)
  || existsb (Ascii.eqb c) ["-"; "_"; "."; "!"; "~"; "*"; "'"; "("; ")"]%char.

Definition hexDigit (n : nat) : ascii :=
  if (n <? 10)%nat then ascii_of_nat (48 + n) else ascii_of_nat (55 + n).

Fixpoint percentEncode (s : string) : string :=
  match s with
  | EmptyString => EmptyString
  | String c s' =>
      if isUnreserved c then String c (percentEncode s')
      else let n := nat_of_ascii c in
           String "%" (String (hexDigit (n / 16)) (String (hexDigit (n mod 16))
                                                          (percentEncode s')))
  end.

(** No network: every request fails. *)
Definition offline : World :=
  {| preprocessText := lowerLetters;
     getSentiment := neutralSentiment;
     test_ad_hominem := fun _ => false;
     test_false_dilemma := fun _ => false;
     test_appeal_to_authority := fun _ => false;
     parseURL := httpURL;
     encodeURIComponent := percentEncode;
     tieRoundsUp := doubleTieUp;
     NEWSAPI_KEY := EmptyString;
     wikiSearch := fun _ => None;
     ddgInstant := fun _ => None;
     fetchArticle := fun _ => EmptyString;
     openSearch := fun _ => None;
     wikiSummary := fun _ => None;
     ddgRelated := fun _ => None;
     newsApi := fun _ => None;
     fetchUrl := fun _ => None |}.

(** Every query variant finds three pages and an abstract of its own. *)
Definition busy : World :=
  {| preprocessText := lowerLetters;
     getSentiment := neutralSentiment;
     test_ad_hominem := fun _ => false;
     test_false_dilemma := fun _ => false;
     test_appeal_to_authority := fun _ => false;
     parseURL := httpURL;
     encodeURIComponent := percentEncode;
     tieRoundsUp := doubleTieUp;
     NEWSAPI_KEY := EmptyString;
     wikiSearch := fun q =>
       Some [ {| hit_title := q ++ " (overview)"; hit_snippet := "An overview." |};
              {| hit_title := q ++ " (history)"; hit_snippet := "Its history." |};
              {| hit_title := q ++ " (usage)"; hit_snippet := "Its usage." |} ];
     ddgInstant := fun q =>
       Some {| AbstractText := "An abstract.";
               AbstractURL := "https://example.org/" ++ percentEncode q;
               Heading := q |};
     fetchArticle := fun _ => EmptyString;
     openSearch := fun _ => None;
     wikiSummary := fun _ => None;
     ddgRelated := fun _ => None;
     newsApi := fun _ => None;
     fetchUrl := fun _ => None |}.

(** The encyclopedia answers every query with the same single page whose
    text carries no cue; nothing else answers. *)
Definition oneHit : World :=
  {| preprocessText := lowerLetters;
     getSentiment := neutralSentiment;
     test_ad_hominem := fun _ => false;
     test_false_dilemma := fun _ => false;
     test_appeal_to_authority := fun _ => false;
     parseURL := httpURL;
     encodeURIComponent := percentEncode;
     tieRoundsUp := doubleTieUp;
     NEWSAPI_KEY := EmptyString;
     wikiSearch := fun _ =>
       Some [ {| hit_title := "Moon";
                 hit_snippet :=
                   "The <span>Moon</span> is the only natural satellite of Earth." |} ];
     ddgInstant := fun _ => None;
     fetchArticle := fun _ => EmptyString;
     openSearch := fun _ => None;
     wikiSummary := fun _ => None;
     ddgRelated := fun _ => None;
     newsApi := fun _ => None;
     fetchUrl := fun _ => None |}.

(** The encyclopedia answers every query with one page that calls the
    statement false; nothing else answers. *)
Definition debunked : World :=
  {| preprocessText := lowerLetters;
     getSentiment := neutralSentiment;
     test_ad_hominem := fun _ => false;
     test_false_dilemma := fun _ => false;
     test_appeal_to_authority := fun _ => false;
     parseURL := httpURL;
     encodeURIComponent := percentEncode;
     tieRoundsUp := doubleTieUp;
     NEWSAPI_KEY := EmptyString;
     wikiSearch := fun _ =>
       Some [ {| hit_title := "Two plus two";
                 hit_snippet := "The statement that two plus two make five is false." |} ];
     ddgInstant := fun _ => None;
     fetchArticle := fun _ => EmptyString;
     openSearch := fun _ => None;
     wikiSummary := fun _ => None;
     ddgRelated := fun _ => None;
     newsApi := fun _ => None;
     fetchUrl := fun _ => None |}.

Definition notTrueItem : Evidence :=
  {| source := "Wikipedia";
     title := "Great Wall of China";
     snippet := "It is not true that the wall can be seen from space.";
     url := "https://en.wikipedia.org/wiki/Great_Wall_of_China";
     fullText := None |}.

Definition confirmedItem : Evidence :=
  {| source := "Wikipedia";
     title := "Boiling point";
     snippet := "Measurements confirmed that water boils at 100 degrees Celsius at sea level.";
     url := "https://en.wikipedia.org/wiki/Boiling_point";
     fullText := None |}.

Definition silentItem : Evidence :=
  {| source := "DuckDuckGo";
     title := "Water";
     snippet := "Water is an inorganic compound.";
     url := "https://duckduckgo.com/Water";
     fullText := None |}.

(** The same page, as found by the fact checker and by the handler. *)
Definition moonFromChecker : Ev :=
  {| ev_url := "https://en.wikipedia.org/wiki/Moon"; ev_source := "Wikipedia";
     ev_title := "Moon"; ev_summary := "The Moon is the only natural satellite of Earth." |}.

Definition moonFromOpenSearch : Ev :=
  {| ev_url := "https://en.wikipedia.org/wiki/Moon"; ev_source := "wikipedia";
     ev_title := "Moon"; ev_summary := "The Moon is Earth's only natural satellite." |}.

(** An instant answer whose [AbstractURL] is empty, as [searchEvidence]
    stores it ([url: '']), and an article whose [url] is the empty string. *)
Definition abstractEmptyUrl : Ev :=
  {| ev_url := EmptyString; ev_source := "DuckDuckGo";
     ev_title := "Moon"; ev_summary := "The Moon is the only natural satellite of Earth." |}.

Definition articleEmptyUrl : Ev :=
  {| ev_url := EmptyString; ev_source := "news";
     ev_title := "Moon landing anniversary"; ev_summary := EmptyString |}.

End Worlds.

(** The specification's formulas, written from its words, to be compared
    with the functions above. *)

Module SpecWords.

Import FreeFactChecker Server.

(** §4.7: start at 0.5, subtract up to 0.4 for sentiment and up to 0.6 for
    fallacies, add 0.2 if any evidence exists, clamp to [0.01, 0.99]. *)
Definition spec_confidence (sentiment : Q) (fallacyCount : nat) (hasEvidence : bool) : Q :=
  Qmax 0.01 (Qmin 0.99
    (0.5 - Qmin 0.4 (Qabs sentiment * 0.25) - Qmin 0.6 (of_nat fallacyCount * 0.15)
     + (if hasEvidence then 0.2 else 0)))%Q.

(** §4.6: the number of items with a supporting, respectively refuting, cue. *)
Definition spec_supports (evidence : list Evidence) : nat :=
  length (List.filter (fun item => is_supporting (evidence_text item)) evidence).

Definition spec_refutes (evidence : list Evidence) : nat :=
  length (List.filter (fun item => is_refuting (evidence_text item)) evidence).

(** §4.8 step 5: the average of the calibrator's confidence and the
    evidence term, clamped to [0.01, 0.99]. *)
Definition spec_average (modelConfidence truthScore crossSourceAgreement credibility : Q) : Q :=
  ((modelConfidence
    + Qmax (0.7 * Qmax (Qabs (truthScore - 0.5) * 2) crossSourceAgreement)
           (0.5 * credibility)) / 2)%Q.

Definition spec_final_confidence
           (modelConfidence truthScore crossSourceAgreement credibility : Q) : Q :=
  Qmax 0.01 (Qmin 0.99 (spec_average modelConfidence truthScore crossSourceAgreement
                                     credibility)).

(** §4.8 step 4: the strong-signal condition on the evidence-based verdict,
    its confidence and the truth score. *)
Definition spec_strong (verdict : string) (confidence : num) (truthScore : Q) : Prop :=
  ((verdict = "TRUE" \/ verdict = "FALSE") /\ num_le (Num 0.80) confidence)
  \/ (0.90 <= truthScore)%Q \/ (truthScore <= 0.10)%Q.

(** §4.8 step 5: at least 0.70 is TRUE, at most 0.30 is FALSE, tested in
    this order on [crossSourceAgreement] or [truthScore]. *)
Definition spec_weak_verdict (crossSourceAgreement truthScore : Q) (verdict : string) : Prop :=
  ((0.70 <= crossSourceAgreement \/ 0.70 <= truthScore)%Q /\ verdict = "TRUE")
  \/ (~ (0.70 <= crossSourceAgreement \/ 0.70 <= truthScore)%Q
      /\ (crossSourceAgreement <= 0.30 \/ truthScore <= 0.30)%Q /\ verdict = "FALSE")
  \/ (~ (0.70 <= crossSourceAgreement \/ 0.70 <= truthScore)%Q
      /\ ~ (crossSourceAgreement <= 0.30 \/ truthScore <= 0.30)%Q
      /\ verdict = "NEEDS VERIFICATION").

(** The number of items of a list of evidence that carry the URL [u]. *)
Definition items_with_url (u : string) (evs : list Ev) : nat :=
  length (List.filter (fun e => String.eqb (ev_url e) u) evs).

End SpecWords.

(** Invariants of the two deduplicating loops. *)

Module Invariants.

Import Eff FreeFactChecker Server.

(** What the [Map] of [mergeEvidence] satisfies at every iteration: keys
    are distinct and non-empty, and every entry is stored under its URL. *)
Record merge_inv (m : JSMap Ev) : Prop := {
  inv_nodup : List.NoDup (map fst m);
  inv_key : forall k v, In (k, v) m -> ev_url v = k /\ k <> EmptyString
}.

(** The loop invariant of [searchEvidence]: the URLs of [results] are
    distinct and all belong to [seen]. *)
Record search_inv (st : SearchState) : Prop := {
  seen_covers : forall u, In u (map url (snd st)) -> u ∈ fst st;
  urls_nodup : List.NoDup (map url (snd st))
}.

(** The value of [calculateConfidence] when the sentiment is a number. *)
Definition finiteConfidence (sentiment : Q) (fallacies : list string)
                            (evidence : list Evidence) : Q :=
  let score := 0.5%Q in
  let score := (score - Qmin 0.4 (Qabs sentiment * 0.25))%Q in
  let score := (score - Qmin 0.6 (of_nat (length fallacies) * 0.15))%Q in
  let score := if (0 <? length evidence)%nat then (score + 0.2)%Q else score in
  Qmax 0.01 (Qmin 0.99 score).

(** The confidence of the fact checker as the handler uses it: the number
    itself, and the default 0.5 in place of [NaN]. *)
Definition numberOr (d : Q) (x : num) : Q :=
  match x with
  | Num c => c
  | NaN => d
  end.

(** The state of [searchEvidence] after one more query variant. *)
Definition afterQuery (w : World) (q : string) (st : SearchState) : SearchState :=
  value (ddgStep w q (value (wikiStep w q st))).

End Invariants.

(** ** Further parts of the two files *)

Module Coverage.

Import Eff FreeFactChecker Server.

(** [s.split(' ')] *)
Fixpoint split_space_from (s cur : string) : list string :=
  match s with
  | EmptyString => [cur]
  | String c s' =>
      if Ascii.eqb c " " then cur :: split_space_from s' EmptyString
      else split_space_from s' (cur ++ String c EmptyString)
  end.

Definition split_space (s : string) : list string := split_space_from s EmptyString.

(** [calculateRelevance] of freeFactCheck.js: the two token sets, the
    tokens of the first that the second has, and their union. *)
Definition calculateRelevance (w : World) (query text : string) : Q :=
  let q := split_space (preprocessText w query) in
  let t := split_space (preprocessText w text) in
  let qSet : gset string := list_to_set q in
  let tSet : gset string := list_to_set t in
  let intersection : gset string := filter (fun x => x ∈ tSet) qSet in
  let union : gset string := qSet ∪ tSet in
  if (0 <? size union)%nat then (of_nat (size intersection) / of_nat (size union))%Q
  else 0%Q.

(** What a result of the fact checker tells the caller. *)
Definition answer_of (r : FCResult) : string * num * string * Q :=
  (verdict r, confidence r, explanation r, truthScore r).

(** An item of [results] that carries no page text, or a non-empty one of
    at most [MAX_ARTICLE_CHARS] characters. *)
Definition fullText_bounded (e : Evidence) : Prop :=
  match fullText e with
  | Some t => t <> EmptyString /\ (String.length t <= MAX_ARTICLE_CHARS)%nat
  | None => True
  end.

(** An item as [searchEvidence] pushes it, before the enrichment. *)
Definition no_fullText (e : Evidence) : Prop := fullText e = None.

(** The first item of a list that carries the URL [u]. *)
Definition find_url (u : string) (l : list Ev) : option Ev :=
  find (fun e => String.eqb (ev_url e) u) l.

(** The answer to "Is ice wet?" in the world [mixed]. *)
Definition shortAnswer : Response :=
  {| resp_query := "Is ice wet?";
     resp_claim := "ice wet";
     final_verdict := "TRUE";
     final_confidence := (70 # 100)%Q;
     source_credibility_score := (500 # 1000)%Q;
     cross_source_agreement := (1000 # 1000)%Q;
     reasoning := "Reliable sources contradict this claim.";
     resp_evidence := [] |}.

(** A string of ASCII characters: the strings on which [trim],
    [toLowerCase] and [\s] of the model are those of the code. *)
Definition isASCII (s : string) : bool :=
  forallb (fun c => (nat_of_ascii c <? 128)%nat) (list_ascii_of_string s).

(** A string of white space only. *)
Fixpoint blank (s : string) : bool :=
  match s with
  | EmptyString => true
  | String c s' => isWhitespace c && blank s'
  end.

(** A request for the text of a page. *)
Definition is_article (c : Call) : bool :=
  match c with
  | CArticle _ => true
  | _ => false
  end.

(** One entry of [citations] in the handler. *)
Record Citation := {
  cit_title : string;
  cit_url : string;
  cit_source : string;
  cit_credibility : Q
}.

(** [a] is cited before [b]: it is at least as credible. *)
Definition at_least_as_credible (a b : Citation) : Prop :=
  (cit_credibility b <= cit_credibility a)%Q.

(** [arr.sort((a, b) => b.credibility - a.credibility)]: the sort is stable,
    so its result is the one of a stable insertion from the right. *)
Fixpoint insertCitation (c : Citation) (sorted : list Citation) : list Citation :=
  match sorted with
  | [] => [c]
  | d :: rest =>
      if Qle_bool (cit_credibility d) (cit_credibility c) then c :: d :: rest
      else d :: insertCitation c rest
  end.

Definition sortCitations (l : list Citation) : list Citation :=
  fold_right insertCitation [] l.

(** Step 10 of the handler, inside its [try]. *)
Fixpoint mapCitations (w : World) (evs : list Ev) : result (list Citation) :=
  match evs with
  | [] => Ok []
  | x :: rest =>
      rbind (classifySourceQuality w (ev_url x))
            (fun c => rbind (mapCitations w rest)
                            (fun cs => Ok ({| cit_title := if falsy (ev_title x) then ev_url x
                                                           else ev_title x;
                                              cit_url := ev_url x;
                                              cit_source := ev_source x;
                                              cit_credibility := c |} :: cs)))
  end.

Definition citationsOf (w : World) (filteredEvidence : list Ev) : result (list Citation) :=
  rbind (mapCitations w filteredEvidence) (fun cs => Ok (firstn 5 (sortCitations cs))).

(** [inferSourceType] of server.js. *)
Definition inferSourceType (w : World) (url : string) : string :=
  match new_URL w url with
  | Ok u =>
      let host := toLowerCase (hostname u) in
      if includes host "wikipedia.org" then "encyclopedia"
      else if endsWith host ".gov" || includes host ".gov." then "government"
      else if existsb (includes host)
                      ["bbc."; "reuters."; "guardian."; "nytimes."; "cnn."; "aljazeera."]
           then "news"
      else "web"
  | Throw _ => "web"
  end.

(** The answer to "The moon orbits the earth" when the encyclopedia finds
    one page without cue. *)
Definition moonAnswer : Response :=
  {| resp_query := "The moon orbits the earth";
     resp_claim := "The moon orbits the earth";
     final_verdict := "NEEDS VERIFICATION";
     final_confidence := 0.56%Q;
     source_credibility_score := (850 # 1000)%Q;
     cross_source_agreement := (500 # 1000)%Q;
     reasoning := "Evidence is inconclusive or mixed.";
     resp_evidence := [Worlds.moonFromChecker] |}.

(** Three pages that refute and one abstract that supports. *)
Definition mixed : World :=
  {| preprocessText := Worlds.lowerLetters;
     getSentiment := Worlds.neutralSentiment;
     test_ad_hominem := fun _ => false;
     test_false_dilemma := fun _ => false;
     test_appeal_to_authority := fun _ => false;
     parseURL := Worlds.httpURL;
     encodeURIComponent := Worlds.percentEncode;
     tieRoundsUp := Worlds.doubleTieUp;
     NEWSAPI_KEY := EmptyString;
     wikiSearch := fun _ =>
       Some [ {| hit_title := "Great Wall of China";
                 hit_snippet := "That the wall is visible from space is <b>false</b>." |};
              {| hit_title := "Space myths";
                 hit_snippet := "A well known piece of misinformation about the wall." |};
              {| hit_title := "Visibility from orbit";
                 hit_snippet := "The popular belief is false for the naked eye." |} ];
     ddgInstant := fun _ =>
       Some {| AbstractText := "Astronauts confirmed seeing the wall with a camera lens.";
               AbstractURL := "https://example.org/great-wall";
               Heading := "Great Wall" |};
     fetchArticle := fun _ => EmptyString;
     openSearch := fun _ => None;
     wikiSummary := fun _ => None;
     ddgRelated := fun _ => None;
     newsApi := fun _ => None;
     fetchUrl := fun _ => None |}.

End Coverage.

Import Eff FreeFactChecker Server Worlds SpecWords Invariants Coverage.

(** * Properties *)

(** ** Facts about the primitives *)

Module JSFacts.

(** Case analysis on every test of the goal. *)
Ltac case_tests :=
  repeat match goal with
         | |- context [if ?b then _ else _] => destruct b
         | |- context [match find ?f ?l with _ => _ end] => destruct (find f l)
         end.

Lemma app_cons (c : ascii) (a b : string) : String c a ++ b = String c (a ++ b).
Proof. reflexivity. Qed.

Lemma prefix_app (p s : string) :
  String.prefix p s = true <-> exists r, s = p ++ r.
Proof.
  revert s. induction p as [|c p IH]; intros s.
  - destruct s; simpl; split; eauto.
  - destruct s as [|d s]; simpl.
    + split; [discriminate | intros [r Hr]; discriminate].
    + destruct (Ascii.ascii_dec c d) as [->|Hne].
      * rewrite IH. split; intros [r Hr]; exists r; rewrite app_cons in *;
          [now subst | now inversion Hr].
      * split; [discriminate|].
        intros [r Hr]. rewrite app_cons in Hr. inversion Hr. congruence.
Qed.

Lemma string_app_assoc (a b c : string) : (a ++ b) ++ c = a ++ (b ++ c).
Proof.
  induction a as [|x a IH]; [reflexivity|].
  rewrite !app_cons. now rewrite IH.
Qed.

(** [includes] finds exactly the substrings. *)
Lemma includes_spec (s sub : string) :
  includes s sub = true <-> exists a b, s = a ++ sub ++ b.
Proof.
  induction s as [|c s IH].
  - change (includes EmptyString sub) with (if String.prefix sub EmptyString then true else false).
    destruct (String.prefix sub EmptyString) eqn:Hp.
    + split; [intros _ | reflexivity].
      apply prefix_app in Hp as [r Hr]. exists EmptyString, r. exact Hr.
    + split; [discriminate|]. intros (a & b & Hab).
      assert (String.prefix sub EmptyString = true) as Hq; [|congruence].
      apply prefix_app. destruct a; [eauto | discriminate].
  - change (includes (String c s) sub)
      with (if String.prefix sub (String c s) then true else includes s sub).
    destruct (String.prefix sub (String c s)) eqn:Hp.
    + split; [intros _ | reflexivity].
      apply prefix_app in Hp as [r Hr]. exists EmptyString, r. exact Hr.
    + rewrite IH. split.
      * intros (a & b & ->). exists (String c a), b. reflexivity.
      * intros (a & b & Hab). destruct a as [|d a].
        -- assert (String.prefix sub (String c s) = true) as Hq; [|congruence].
           apply prefix_app. eauto.
        -- rewrite app_cons in Hab. inversion Hab. eauto.
Qed.

(** A string that contains [a ++ b] contains [b]. *)
Lemma includes_tail (s a b : string) :
  includes s (a ++ b) = true -> includes s b = true.
Proof.
  rewrite !includes_spec. intros (x & y & ->).
  exists (x ++ a), y. now rewrite !string_app_assoc.
Qed.

Lemma falsy_spec (s : string) : falsy s = true <-> s = EmptyString.
Proof. unfold falsy. apply String.eqb_eq. Qed.

Local Open Scope Q_scope.

Lemma clamp_bounds (lo hi x : Q) :
  lo <= hi -> lo <= Math_max lo (Math_min hi x) <= hi.
Proof.
  intros Hlh. unfold Math_max, Math_min. split.
  - apply Q.le_max_l.
  - apply Q.max_lub; [exact Hlh | apply Q.le_min_l].
Qed.

Lemma of_nat_nonneg (n : nat) : 0 <= of_nat n.
Proof.
  unfold of_nat. change 0 with (inject_Z 0). rewrite <- Zle_Qle. lia.
Qed.

Lemma of_nat_pos (n : nat) : (0 < n)%nat -> 0 < of_nat n.
Proof.
  intros H. unfold of_nat. change 0 with (inject_Z 0). rewrite <- Zlt_Qlt. lia.
Qed.

Lemma of_nat_le (n m : nat) : (n <= m)%nat -> of_nat n <= of_nat m.
Proof. intros H. unfold of_nat. rewrite <- Zle_Qle. lia. Qed.

(** A part of a positive whole is a fraction between 0 and 1. *)
Lemma ratio_bounds (part whole : nat) :
  (part <= whole)%nat -> (0 < whole)%nat -> 0 <= of_nat part / of_nat whole <= 1.
Proof.
  intros Hle Hpos. pose proof (of_nat_pos whole Hpos) as Hw. split.
  - apply Qle_shift_div_l; [exact Hw|]. rewrite Qmult_0_l. apply of_nat_nonneg.
  - apply Qle_shift_div_r; [exact Hw|]. rewrite Qmult_1_l. now apply of_nat_le.
Qed.

End JSFacts.

(** ** Properties of freeFactCheck.js *)

Module FreeFactCheckerSpec.

Import JSFacts.
Local Open Scope Q_scope.

(** *** Source credibility *)

Lemma classifyHost_values (host : string) :
  classifyHost host = 0.95 \/ classifyHost host = 0.85 \/ classifyHost host = 0.8
  \/ classifyHost host = 0.25 \/ classifyHost host = 0.5.
Proof.
  unfold classifyHost. case_tests; auto.
Qed.

Lemma classifyHost_never_04 (host : string) : ~ classifyHost host == 0.4.
Proof.
  destruct (classifyHost_values host) as [H|[H|[H|[H|H]]]]; rewrite H; intros E; discriminate E.
Qed.

Lemma classifyHost_bounds (host : string) : 0 <= classifyHost host <= 1.
Proof.
  destruct (classifyHost_values host) as [H|[H|[H|[H|H]]]]; rewrite H; split; discriminate.
Qed.

Lemma classifySourceQuality_unfold (w : World) (url : string) :
  classifySourceQuality w url =
  Ok (if falsy url then 0.4
      else classifyHost (toLowerCase match parseURL w url with
                                     | Some u => hostname u
                                     | None => url
                                     end)).
Proof.
  unfold classifySourceQuality, new_URL.
  destruct (falsy url); [reflexivity|].
  destruct (parseURL w url); reflexivity.
Qed.

(** C6.  [classifySourceQuality] is total: on every string, whatever the
    URL parser does with it, it returns normally (it does not throw) a
    number between 0 and 1. *)
Theorem classifySourceQuality_total (w : World) (url : string) :
  exists q, classifySourceQuality w url = Ok q /\ 0 <= q <= 1.
Proof.
  rewrite classifySourceQuality_unfold. eexists; split; [reflexivity|].
  destruct (falsy url).
  - split; discriminate.
  - apply classifyHost_bounds.
Qed.

(** C5 as stated fails: the string [garbage] does not parse as a URL and
    is scored 0.5, not 0.4. *)
Lemma classifySourceQuality_garbage :
  parseURL offline "garbage" = None
  /\ classifySourceQuality offline "garbage" = Ok 0.5
  /\ ~ 0.5 == 0.4.
Proof. repeat split. intros E; discriminate E. Qed.

(** C5, amended.  [classifySourceQuality] never throws.  It returns 0.4
    for the empty string and for nothing else; every other string is
    scored by the tier table, applied to the lower-cased host name when
    the string parses as a URL and to the lower-cased string itself when
    it does not, with 0.5 when no tier matches. *)
Theorem classifySourceQuality_cases (w : World) (url : string) :
  classifySourceQuality w url =
  Ok (if falsy url then 0.4
      else classifyHost (toLowerCase match parseURL w url with
                                     | Some u => hostname u
                                     | None => url
                                     end))
  /\ (forall q, classifySourceQuality w url = Ok q -> (q == 0.4 <-> url = EmptyString)).
Proof.
  split; [apply classifySourceQuality_unfold|].
  intros q. rewrite classifySourceQuality_unfold.
  destruct (falsy url) eqn:Hf; intros [= <-].
  - apply falsy_spec in Hf. split; [auto | reflexivity].
  - split.
    + intros E. now apply classifyHost_never_04 in E.
    + intros ->. discriminate Hf.
Qed.

(** *** Confidence *)

Lemma calculateConfidence_Num (s : Q) (f : list string) (e : list Evidence) :
  calculateConfidence (Num s) f e = Num (finiteConfidence s f e).
Proof.
  unfold calculateConfidence, finiteConfidence. now destruct (0 <? length e)%nat.
Qed.

Lemma calculateConfidence_NaN (f : list string) (e : list Evidence) :
  calculateConfidence NaN f e = NaN.
Proof.
  unfold calculateConfidence. now destruct (0 <? length e)%nat.
Qed.

Lemma finiteConfidence_spec (s : Q) (f : list string) (e : list Evidence) :
  finiteConfidence s f e == spec_confidence s (length f) (0 <? length e)%nat
  /\ 0.01 <= finiteConfidence s f e <= 0.99.
Proof.
  split.
  - unfold finiteConfidence, spec_confidence.
    destruct (0 <? length e)%nat.
    + reflexivity.
    + now rewrite Qplus_0_r.
  - unfold finiteConfidence. apply (clamp_bounds 0.01 0.99). discriminate.
Qed.

(** C7.  The claim fails when the sentiment is [NaN], which the analyser
    returns for a text without tokens: [calculateConfidence] then returns
    [NaN], which is not within [0.01, 0.99]; this happens for the claim
    "2 + 2 = 5".  For every sentiment that is a number, every fallacy list
    and every evidence set, the result is 0.5 minus min(0.4, |sentiment| *
    0.25) minus min(0.6, fallacyCount * 0.15), plus 0.2 when there is
    evidence, clamped to [0.01, 0.99]. *)
Theorem calculateConfidence_spec :
  (forall (fallacies : list string) (evidence : list Evidence),
      calculateConfidence NaN fallacies evidence = NaN)
  /\ preprocessText offline "2 + 2 = 5" = EmptyString
  /\ sentiment (value (checkClaim offline "2 + 2 = 5")) = NaN
  /\ confidence (value (checkClaim offline "2 + 2 = 5")) = NaN
  /\ (forall (sentiment : Q) (fallacies : list string) (evidence : list Evidence),
        exists c,
          calculateConfidence (Num sentiment) fallacies evidence = Num c
          /\ c == spec_confidence sentiment (length fallacies) (0 <? length evidence)%nat
          /\ 0.01 <= c <= 0.99).
Proof.
  split; [exact calculateConfidence_NaN|].
  split; [reflexivity|]. split; [reflexivity|]. split; [reflexivity|].
  intros s f e. exists (finiteConfidence s f e).
  split; [apply calculateConfidence_Num | apply finiteConfidence_spec].
Qed.

Example confidence_without_evidence :
  exists c, calculateConfidence (Num 0) [] [] = Num c /\ c == 0.5.
Proof. eexists. split; reflexivity. Qed.

Example confidence_floor :
  exists c, calculateConfidence (Num (-3))
                                ["ad hominem"; "false dilemma"; "appeal to_authority"] []
            = Num c
            /\ c == 0.01.
Proof. eexists. split; reflexivity. Qed.

(** *** Truth score *)

(** Nine items of ten say "confirmed", none carries a refuting cue. *)
Example nine_of_ten_confirmed :
  computeTruthScore "Water boils at 100 degrees" (repeat confirmedItem 9 ++ [silentItem])
  = {| ta_truthScore := 0 # 9; stats := {| supports := 9; refutes := 0 |} |}.
Proof. reflexivity. Qed.

Lemma fold_truth_step (evidence : list Evidence) (s r : nat) :
  fold_left truth_step evidence (s, r)
  = ((s + spec_supports evidence)%nat, (r + spec_refutes evidence)%nat).
Proof.
  revert s r. induction evidence as [|item rest IH]; intros s r.
  - unfold spec_supports, spec_refutes. cbn. f_equal; lia.
  - cbn [fold_left]. unfold truth_step at 2. rewrite IH.
    unfold spec_supports, spec_refutes. cbn [List.filter].
    destruct (is_refuting (evidence_text item)), (is_supporting (evidence_text item));
      cbn [length]; f_equal; lia.
Qed.

(** C4.  The counters returned by [computeTruthScore] are the numbers of
    items with a supporting and with a refuting cue; [truthScore] is
    refutes / (supports + refutes) when that sum is positive and 0.5
    otherwise, in particular on the empty evidence set; it always lies
    in [0, 1]. *)
Theorem computeTruthScore_spec (claim : string) (evidence : list Evidence) :
  let r := computeTruthScore claim evidence in
  let s := stats r in
  supports s = spec_supports evidence
  /\ refutes s = spec_refutes evidence
  /\ ta_truthScore r
     = (if (supports s + refutes s =? 0)%nat then 0.5
        else of_nat (refutes s) / of_nat (supports s + refutes s))
  /\ ta_truthScore (computeTruthScore claim []) = 0.5
  /\ 0 <= ta_truthScore r <= 1.
Proof.
  unfold computeTruthScore. destruct evidence as [|item rest].
  - cbn. repeat split; discriminate.
  - cbn [length Nat.eqb]. rewrite fold_truth_step. cbn [Nat.add].
    set (ev := item :: rest).
    destruct (spec_supports ev + spec_refutes ev =? 0)%nat eqn:Ht;
      cbn [supports refutes stats ta_truthScore]; rewrite Ht.
    + repeat split; discriminate.
    + refine (conj eq_refl (conj eq_refl (conj eq_refl (conj eq_refl _)))).
      apply Nat.eqb_neq in Ht. apply ratio_bounds; lia.
Qed.

(** C10.  On a single item whose lower-cased text contains the phrase
    "not true", both counters are incremented, because the supporting cue
    "true" is a substring of the refuting cue "not true"; the truth score
    is therefore 0.5 and not 1, whatever else the text contains. *)
Theorem not_true_counts_both (claim : string) (item : Evidence) :
  includes (evidence_text item) "not true" = true ->
  computeTruthScore claim [item]
  = {| ta_truthScore := 1 # 2; stats := {| supports := 1; refutes := 1 |} |}
  /\ ta_truthScore (computeTruthScore claim [item]) == 0.5
  /\ ~ ta_truthScore (computeTruthScore claim [item]) == 1.
Proof.
  intros Hnt.
  assert (includes (evidence_text item) "true" = true) as Ht
    by (apply (includes_tail _ "not " "true"); exact Hnt).
  assert (computeTruthScore claim [item]
          = {| ta_truthScore := 1 # 2; stats := {| supports := 1; refutes := 1 |} |}) as E.
  { unfold computeTruthScore. cbn [length Nat.eqb fold_left]. unfold truth_step.
    unfold is_refuting, is_supporting. rewrite Hnt, Ht.
    rewrite orb_true_r. reflexivity. }
  rewrite E. repeat split. intros N; discriminate N.
Qed.

Lemma not_true_counts_both_witness :
  includes (evidence_text notTrueItem) "not true" = true
  /\ ta_truthScore (computeTruthScore "The Great Wall is visible from space" [notTrueItem])
     == 0.5.
Proof.
  split; [reflexivity|].
  apply (not_true_counts_both "The Great Wall is visible from space" notTrueItem).
  reflexivity.
Defined.

End FreeFactCheckerSpec.

(** ** Properties of the effects *)

Module EffFacts.

Lemma value_bind {A B} (m : IO A) (k : A -> IO B) :
  value (bind m k) = value (k (value m)).
Proof. unfold value, bind. destruct m as [a t]. cbn. now destruct (k a). Qed.

Lemma trace_bind {A B} (m : IO A) (k : A -> IO B) :
  trace (bind m k) = (trace m ++ trace (k (value m)))%list.
Proof. unfold value, trace, bind. destruct m as [a t]. cbn. now destruct (k a). Qed.

Lemma value_ret {A} (a : A) : value (ret a) = a.
Proof. reflexivity. Qed.

Lemma trace_ret {A} (a : A) : trace (ret a) = [].
Proof. reflexivity. Qed.


(** The handler on a query that is a string: nothing is thrown before the
    [try], and [rawInput] is the trimmed query. *)
Lemma analyze_string (w : World) (s : string) :
  analyze w (JString s) = fmap Sent (respond w (trim s)).
Proof. unfold respond, js_or, truthy. now destruct s. Qed.

Lemma analyze_sent (w : World) (s : string) (r : HttpResponse) :
  value (analyze w (JString s)) = Sent r <-> value (respond w (trim s)) = r.
Proof.
  rewrite analyze_string. unfold fmap, value. cbn [fst].
  split; [now intros [= ->] | now intros ->].
Qed.


Lemma analyze_trace (w : World) (s : string) :
  trace (analyze w (JString s)) = trace (respond w (trim s)).
Proof. now rewrite analyze_string. Qed.

End EffFacts.

(** ** Deduplication and the size of the evidence set *)

Module EvidenceSetSpec.

Import JSFacts EffFacts.

(** *** The merge of the handler *)

Lemma map_set_fresh {V} (m : JSMap V) (k : string) (v : V) :
  map_has m k = false -> map_set m k v = (m ++ [(k, v)])%list.
Proof.
  induction m as [|[k' v'] m IH]; cbn; [reflexivity|].
  intros H. apply orb_false_elim in H as [Hk Hm].
  rewrite Hk. now rewrite IH.
Qed.

Lemma map_has_In {V} (m : JSMap V) (k : string) :
  map_has m k = true <-> In k (map fst m).
Proof.
  unfold map_has. rewrite existsb_exists, in_map_iff.
  split; intros [kv [H1 H2]]; exists kv.
  - apply String.eqb_eq in H2. auto.
  - split; [exact H2 | now apply String.eqb_eq].
Qed.

Lemma merge_inv_empty : merge_inv [].
Proof. split; [constructor | intros k v []]. Qed.

Lemma mergeStep_keys (m : JSMap Ev) (ev : Ev) :
  map fst (mergeStep m ev)
  = if negb (falsy (ev_url ev)) && negb (map_has m (ev_url ev))
    then (map fst m ++ [ev_url ev])%list
    else map fst m.
Proof.
  unfold mergeStep.
  destruct (falsy (ev_url ev)); cbn [negb andb]; [reflexivity|].
  destruct (map_has m (ev_url ev)) eqn:Hh; cbn [negb]; [reflexivity|].
  rewrite map_set_fresh by exact Hh. now rewrite List.map_app.
Qed.

Lemma mergeStep_inv (m : JSMap Ev) (ev : Ev) :
  merge_inv m -> merge_inv (mergeStep m ev).
Proof.
  intros [Hnd Hkey]. unfold mergeStep.
  destruct (falsy (ev_url ev)) eqn:Hf; cbn [negb andb]; [now split|].
  destruct (map_has m (ev_url ev)) eqn:Hh; cbn [negb]; [now split|].
  rewrite map_set_fresh by exact Hh. split.
  - rewrite List.map_app. cbn. apply List.NoDup_app.
    + exact Hnd.
    + constructor; [intros [] | constructor].
    + intros x Hx [<-|[]]. apply map_has_In in Hx. congruence.
  - intros k v Hin. apply in_app_or in Hin as [Hin|[[= <- <-]|[]]].
    + now apply Hkey.
    + split; [reflexivity|]. intros E. apply falsy_spec in E. congruence.
Qed.

Lemma merge_fold_inv (l : list Ev) (m : JSMap Ev) :
  merge_inv m -> merge_inv (fold_left mergeStep l m).
Proof.
  revert m. induction l as [|ev l IH]; intros m Hm; cbn; [exact Hm|].
  apply IH. now apply mergeStep_inv.
Qed.

(** A non-empty URL is a key of the final [Map] as soon as it is a key of
    the initial one or the URL of an item. *)
Lemma merge_fold_keys (l : list Ev) (m : JSMap Ev) (u : string) :
  u <> EmptyString -> In u (map fst m) \/ In u (map ev_url l) ->
  In u (map fst (fold_left mergeStep l m)).
Proof.
  intros Hu. revert m. induction l as [|ev l IH]; intros m; cbn.
  - intros [H|[]]. exact H.
  - intros H. apply IH. rewrite mergeStep_keys.
    destruct (falsy (ev_url ev)) eqn:Hf; cbn [negb andb].
    + apply falsy_spec in Hf. destruct H as [H|[H|H]]; auto. congruence.
    + destruct (map_has m (ev_url ev)) eqn:Hh; cbn [negb].
      * apply map_has_In in Hh. destruct H as [H|[H|H]]; auto. left. congruence.
      * rewrite in_app_iff. cbn. destruct H as [H|[H|H]]; auto.
Qed.

Lemma values_urls (m : JSMap Ev) :
  merge_inv m -> map ev_url (map_values m) = map fst m.
Proof.
  intros [_ Hkey]. unfold map_values. rewrite map_map.
  apply map_ext_in. intros [k v] Hin. cbn. now apply Hkey.
Qed.

Lemma count_in_nodup (l : list string) (u : string) :
  List.NoDup l -> In u l -> length (List.filter (fun x => String.eqb x u) l) = 1%nat.
Proof.
  induction 1 as [|x l Hx Hnd IH]; [intros []|].
  cbn. destruct (String.eqb_spec x u) as [->|Hne].
  - intros _. cbn. f_equal.
    assert (List.filter (fun x => String.eqb x u) l = []) as ->; [|reflexivity].
    clear IH Hnd. induction l as [|y l IHl]; [reflexivity|]. cbn.
    destruct (String.eqb_spec y u) as [->|_].
    + exfalso. apply Hx. now left.
    + apply IHl. intros Hin. apply Hx. now right.
  - intros [E|Hin]; [congruence | now apply IH].
Qed.

Lemma items_with_url_map (u : string) (evs : list Ev) :
  items_with_url u evs = length (List.filter (fun x => String.eqb x u) (map ev_url evs)).
Proof.
  unfold items_with_url. induction evs as [|e evs IH]; cbn; [reflexivity|].
  destruct (String.eqb (ev_url e) u); cbn; now rewrite IH.
Qed.

Lemma mergeEvidence_nodup (a b : list Ev) :
  List.NoDup (map ev_url (mergeEvidence a b)).
Proof.
  unfold mergeEvidence.
  pose proof (merge_fold_inv (a ++ b) [] merge_inv_empty) as Hinv.
  rewrite values_urls by exact Hinv. apply Hinv.
Qed.

(** *** The search of the fact checker *)

Section Search.

Context (w : World).

Lemma search_inv_init : search_inv (∅, []).
Proof. split; cbn; [intros u [] | constructor]. Qed.

(** Pushing an item whose URL is not in [seen]. *)
Lemma push_inv (seen : gset string) (results : list Evidence) (item : Evidence) :
  search_inv (seen, results) -> url item ∉ seen ->
  search_inv ({[url item]} ∪ seen, (results ++ [item])%list).
Proof.
  intros [Hcov Hnd] Hfresh. cbn in *. split; cbn.
  - intros u. rewrite List.map_app, in_app_iff. cbn.
    intros [Hin|[<-|[]]]; [|set_solver]. apply Hcov in Hin. set_solver.
  - rewrite List.map_app. cbn. apply List.NoDup_app.
    + exact Hnd.
    + constructor; [intros [] | constructor].
    + intros u Hin [<-|[]]. apply Hfresh, Hcov, Hin.
Qed.

Lemma addWikiHit_inv (st : SearchState) (item : WikiHit) :
  search_inv st -> search_inv (addWikiHit w st item).
Proof.
  destruct st as [seen results]. intros Hinv. unfold addWikiHit.
  case_bool_decide as Hseen; [exact Hinv|].
  now apply (push_inv seen results
               {| source := "Wikipedia"; title := hit_title item;
                  snippet := strip_tags (hit_snippet item);
                  url := _; fullText := None |}).
Qed.

Lemma addWikiHit_length (st : SearchState) (item : WikiHit) :
  (length (snd (addWikiHit w st item)) <= S (length (snd st)))%nat.
Proof.
  destruct st as [seen results]. unfold addWikiHit.
  case_bool_decide; cbn; [lia|]. rewrite List.length_app. cbn. lia.
Qed.

Lemma addWikiHits_inv (hits : list WikiHit) (st : SearchState) :
  search_inv st -> search_inv (fold_left (addWikiHit w) hits st).
Proof.
  revert st. induction hits as [|h hits IH]; intros st Hinv; cbn; [exact Hinv|].
  apply IH. now apply addWikiHit_inv.
Qed.

Lemma addWikiHits_length (hits : list WikiHit) (st : SearchState) :
  (length (snd (fold_left (addWikiHit w) hits st)) <= length (snd st) + length hits)%nat.
Proof.
  revert st. induction hits as [|h hits IH]; intros st; cbn; [lia|].
  specialize (IH (addWikiHit w st h)). pose proof (addWikiHit_length st h). lia.
Qed.

Lemma addDDG_inv (st : SearchState) (data : DDGAnswer) :
  search_inv st -> search_inv (addDDG st data).
Proof.
  destruct st as [seen results]. intros Hinv. unfold addDDG.
  destruct (falsy (AbstractText data)); [exact Hinv|].
  case_bool_decide as Hseen; [exact Hinv|].
  now apply (push_inv seen results
               {| source := "DuckDuckGo"; title := Heading data;
                  snippet := AbstractText data;
                  url := AbstractURL data; fullText := None |}).
Qed.

Lemma addDDG_length (st : SearchState) (data : DDGAnswer) :
  (length (snd (addDDG st data)) <= S (length (snd st)))%nat.
Proof.
  destruct st as [seen results]. unfold addDDG.
  destruct (falsy (AbstractText data)); cbn; [lia|].
  case_bool_decide; cbn; [lia|]. rewrite List.length_app. cbn. lia.
Qed.

Lemma wikiStep_trace (q : string) (st : SearchState) :
  trace (wikiStep w q st) = [CWikiSearch q].
Proof. unfold wikiStep. rewrite trace_bind. now destruct (wikiSearch w q). Qed.

Lemma wikiStep_inv (q : string) (st : SearchState) :
  search_inv st -> search_inv (value (wikiStep w q st)).
Proof.
  intros Hinv. unfold wikiStep. rewrite value_bind.
  destruct (wikiSearch w q); cbn; [now apply addWikiHits_inv | exact Hinv].
Qed.

Lemma wikiStep_length (q : string) (st : SearchState) :
  (length (snd (value (wikiStep w q st))) <= length (snd st) + 3)%nat.
Proof.
  unfold wikiStep. rewrite value_bind.
  destruct (wikiSearch w q) as [search|]; cbn; [|lia].
  pose proof (addWikiHits_length (firstn 3 search) st).
  pose proof (List.firstn_le_length 3 search). lia.
Qed.

Lemma ddgStep_trace (q : string) (st : SearchState) :
  trace (ddgStep w q st) = [CDDGInstant q].
Proof. unfold ddgStep. rewrite trace_bind. now destruct (ddgInstant w q). Qed.

Lemma ddgStep_inv (q : string) (st : SearchState) :
  search_inv st -> search_inv (value (ddgStep w q st)).
Proof.
  intros Hinv. unfold ddgStep. rewrite value_bind.
  destruct (ddgInstant w q); cbn; [now apply addDDG_inv | exact Hinv].
Qed.

Lemma ddgStep_length (q : string) (st : SearchState) :
  (length (snd (value (ddgStep w q st))) <= length (snd st) + 1)%nat.
Proof.
  unfold ddgStep. rewrite value_bind.
  destruct (ddgInstant w q) as [data|]; cbn; [|lia].
  pose proof (addDDG_length st data). lia.
Qed.

Lemma searchLoop_cons (q : string) (rest : list string) (st : SearchState) :
  searchLoop w (q :: rest) st
  = (let st2 := afterQuery w q st in
     fst (if (20 <? length (snd st2))%nat then ret st2 else searchLoop w rest st2),
     ([CWikiSearch q; CDDGInstant q]
      ++ snd (if (20 <? length (snd (afterQuery w q st)))%nat then ret (afterQuery w q st)
              else searchLoop w rest (afterQuery w q st)))%list).
Proof.
  cbn [searchLoop]. unfold afterQuery, bind, value.
  pose proof (wikiStep_trace q st) as Hw.
  destruct (wikiStep w q st) as [st1 t1]. cbn in Hw. subst t1. cbn [fst snd].
  pose proof (ddgStep_trace q st1) as Hd.
  destruct (ddgStep w q st1) as [st2 t2]. cbn in Hd. subst t2.
  cbn [fst snd].
  destruct (20 <? length (snd st2))%nat; [reflexivity|].
  now destruct (searchLoop w rest st2).
Qed.

Lemma afterQuery_inv (q : string) (st : SearchState) :
  search_inv st -> search_inv (afterQuery w q st).
Proof. intros H. unfold afterQuery. now apply ddgStep_inv, wikiStep_inv. Qed.

Lemma afterQuery_length (q : string) (st : SearchState) :
  (length (snd (afterQuery w q st)) <= length (snd st) + 4)%nat.
Proof.
  unfold afterQuery.
  pose proof (wikiStep_length q st).
  pose proof (ddgStep_length q (value (wikiStep w q st))). lia.
Qed.

Lemma searchLoop_inv (queries : list string) (st : SearchState) :
  search_inv st -> search_inv (value (searchLoop w queries st)).
Proof.
  revert st. induction queries as [|q rest IH]; intros st Hinv; [exact Hinv|].
  rewrite searchLoop_cons. cbn [value fst].
  pose proof (afterQuery_inv q st Hinv).
  destruct (20 <? length (snd (afterQuery w q st)))%nat; [assumption | now apply IH].
Qed.

(** Every query variant adds at most four items. *)
Lemma searchLoop_length (queries : list string) (st : SearchState) :
  (length (snd (value (searchLoop w queries st)))
   <= length (snd st) + 4 * length queries)%nat.
Proof.
  revert st. induction queries as [|q rest IH]; intros st; [cbn; lia|].
  rewrite searchLoop_cons. unfold value in *. cbn [fst].
  pose proof (afterQuery_length q st).
  destruct (20 <? length (snd (afterQuery w q st)))%nat.
  - cbn [ret fst length]. lia.
  - specialize (IH (afterQuery w q st)). cbn [length]. lia.
Qed.

(** The test [results.length > 20] cannot succeed while at most 20 items
    can have been collected: then every query variant is issued. *)
Lemma searchLoop_trace (queries : list string) (st : SearchState) :
  (length (snd st) + 4 * (length queries - 1) <= 20)%nat ->
  trace (searchLoop w queries st)
  = flat_map (fun q => [CWikiSearch q; CDDGInstant q]) queries.
Proof.
  revert st. induction queries as [|q rest IH]; intros st Hle; [reflexivity|].
  rewrite searchLoop_cons. cbn [trace snd flat_map].
  pose proof (afterQuery_length q st) as Hq.
  destruct rest as [|q' rest'].
  - now destruct (20 <? length (snd (afterQuery w q st)))%nat.
  - cbn [length] in Hle.
    destruct (20 <? length (snd (afterQuery w q st)))%nat eqn:Hlt.
    + apply Nat.ltb_lt in Hlt. lia.
    + f_equal. f_equal. apply (IH (afterQuery w q st)). cbn [length]. lia.
Qed.

Lemma enrichItem_url (item : Evidence) : url (value (enrichItem w item)) = url item.
Proof.
  unfold enrichItem, fetchArticleText.
  destruct (falsy (url item)); cbn.
  - reflexivity.
  - now destruct (falsy _).
Qed.

Lemma enrichItem_trace (item : Evidence) :
  List.filter is_retrieval (trace (enrichItem w item)) = [].
Proof.
  unfold enrichItem, fetchArticleText.
  now destruct (falsy (url item)).
Qed.

Lemma enrichAll_urls (items : list Evidence) :
  map url (value (enrichAll w items)) = map url items.
Proof.
  induction items as [|item rest IH]; [reflexivity|].
  cbn [enrichAll]. rewrite !value_bind. cbn [value ret fst map].
  now rewrite enrichItem_url, IH.
Qed.

Lemma enrichAll_trace (items : list Evidence) :
  List.filter is_retrieval (trace (enrichAll w items)) = [].
Proof.
  induction items as [|item rest IH]; [reflexivity|].
  cbn [enrichAll]. rewrite !trace_bind. cbn [trace ret snd].
  rewrite !List.filter_app, enrichItem_trace, IH. reflexivity.
Qed.

Lemma searchEvidence_urls (claim : string) :
  map url (value (searchEvidence w claim))
  = map url (snd (value (searchLoop w (generateSearchQueries claim) (∅, [])))).
Proof.
  unfold searchEvidence. rewrite !value_bind. cbn [value ret fst].
  rewrite List.map_app, enrichAll_urls, <- List.map_app.
  now rewrite List.firstn_skipn.
Qed.

Lemma searchEvidence_nodup (claim : string) :
  List.NoDup (map url (value (searchEvidence w claim))).
Proof.
  rewrite searchEvidence_urls. apply searchLoop_inv, search_inv_init.
Qed.

End Search.

(** *** The claims *)

Lemma count_absent (l : list string) (u : string) :
  ~ In u l -> length (List.filter (fun x => String.eqb x u) l) = 0%nat.
Proof.
  induction l as [|x l IH]; [reflexivity|]. cbn. intros Hn.
  destruct (String.eqb_spec x u) as [->|_]; [exfalso; auto | auto].
Qed.

(** C9 as stated fails when the shared URL is empty: both sets contain an
    item whose [url] is the empty string and the merge contains none. *)
Lemma mergeEvidence_empty_url :
  In EmptyString (map ev_url [abstractEmptyUrl])
  /\ In EmptyString (map ev_url [articleEmptyUrl])
  /\ items_with_url EmptyString (mergeEvidence [abstractEmptyUrl] [articleEmptyUrl]) = 0%nat.
Proof. repeat split; now left. Qed.

(** C9, amended.  Merging two evidence sets that each contain an item
    with the same non-empty URL yields exactly one item for that URL, and
    the merge keeps no item whose URL is empty; in every merged set, and in
    every set [searchEvidence] returns, no two items share a URL. *)
Theorem mergeEvidence_dedup (w : World) (claim : string) (a b : list Ev) :
  (forall u, u <> EmptyString -> In u (map ev_url a) -> In u (map ev_url b) ->
             items_with_url u (mergeEvidence a b) = 1%nat)
  /\ items_with_url EmptyString (mergeEvidence a b) = 0%nat
  /\ List.NoDup (map ev_url (mergeEvidence a b))
  /\ List.NoDup (map url (value (searchEvidence w claim))).
Proof.
  pose proof (merge_fold_inv (a ++ b) [] merge_inv_empty) as Hinv.
  pose proof (mergeEvidence_nodup a b) as Hnd.
  repeat split; [| |exact Hnd|apply searchEvidence_nodup].
  - intros u Hu Ha Hb.
    rewrite items_with_url_map. apply count_in_nodup; [exact Hnd|].
    unfold mergeEvidence. rewrite values_urls by exact Hinv.
    apply merge_fold_keys; [exact Hu|]. right.
    rewrite List.map_app, in_app_iff. now left.
  - rewrite items_with_url_map. apply count_absent.
    unfold mergeEvidence. rewrite values_urls by exact Hinv.
    intros Hin. apply in_map_iff in Hin as [[k v] [Hk Hin]]. cbn in Hk. subst k.
    now apply (inv_key _ Hinv) in Hin.
Qed.

Lemma mergeEvidence_dedup_witness :
  "https://en.wikipedia.org/wiki/Moon" <> EmptyString
  /\ In "https://en.wikipedia.org/wiki/Moon" (map ev_url [moonFromChecker])
  /\ In "https://en.wikipedia.org/wiki/Moon" (map ev_url [moonFromOpenSearch])
  /\ items_with_url "https://en.wikipedia.org/wiki/Moon"
       (mergeEvidence [moonFromChecker] [moonFromOpenSearch]) = 1%nat.
Proof.
  split; [discriminate|]. split; [now left|]. split; [now left|].
  apply (proj1 (mergeEvidence_dedup offline "The moon orbits the earth"
                  [moonFromChecker] [moonFromOpenSearch])
               "https://en.wikipedia.org/wiki/Moon").
  - discriminate.
  - now left.
  - now left.
Defined.

(** The handler keeps at most 20 items of evidence in its answer. *)
Lemma analyze_evidence_cap (w : World) (query : string) (r : Response) :
  value (respond w (trim query)) = Json r -> (length (resp_evidence r) <= 20)%nat.
Proof.
  unfold respond, analyzeBody, hbind, hret, liftIO, liftR, bind, value.
  destruct (falsy (trim query)); [discriminate|].
  destruct (resolveQueryText w _) as [[resolved|e] t0]; [|discriminate].
  destruct (if (5 <? _)%nat then _ else _) as [externalEvidence t1].
  destruct (checkClaim w _) as [fc t2]. cbn [ret fst snd].
  destruct (sourceCredibilityScoreOf w _) as [cred|e]; [|discriminate].
  cbn [fst]. intros [= <-]. cbn [resp_evidence].
  rewrite List.length_firstn. lia.
Qed.

(** C8 as stated fails: when every query variant finds three new pages
    and a new abstract, [searchEvidence] returns 24 items. *)
Lemma searchEvidence_busy :
  length (value (searchEvidence busy "the sky is blue")) = 24%nat
  /\ ~ (length (value (searchEvidence busy "the sky is blue")) <= 20)%nat.
Proof.
  assert (length (value (searchEvidence busy "the sky is blue")) = 24%nat) as E
    by (vm_compute; reflexivity).
  split; [exact E|]. rewrite E. lia.
Qed.

(** C8, amended.  [searchEvidence] tests [results.length > 20] after each
    query variant; a variant adds at most four items, so the test cannot
    succeed before the sixth and last variant: all six variants are always
    sent to both sources, and the evidence set returned never contains
    more than 24 items. *)
Theorem searchEvidence_size (w : World) (claim : string) :
  (length (value (searchEvidence w claim)) <= 24)%nat
  /\ List.filter is_retrieval (trace (searchEvidence w claim))
     = flat_map (fun q => [CWikiSearch q; CDDGInstant q]) (generateSearchQueries claim).
Proof.
  split.
  - rewrite <- (List.length_map url), searchEvidence_urls, List.length_map.
    pose proof (searchLoop_length w (generateSearchQueries claim) (∅, [])) as H.
    unfold generateSearchQueries in *. cbn [length snd] in H. lia.
  - unfold searchEvidence. rewrite !trace_bind. cbn [trace ret snd].
    rewrite !List.filter_app, enrichAll_trace, searchLoop_trace by (cbn; lia).
    cbn. reflexivity.
Qed.

End EvidenceSetSpec.

(** ** Properties of the verdict reconciler *)

Module ReconcilerSpec.

Import JSFacts EffFacts.
Local Open Scope Q_scope.

(** *** What the fact checker hands to the handler *)

Lemma makeDirectVerdict_fields (raw v : string) (c : Q) (e : string) :
  verdict (makeDirectVerdict raw v c e) = v
  /\ confidence (makeDirectVerdict raw v c e) = Num c
  /\ evidence (makeDirectVerdict raw v c e) = [].
Proof. repeat split. Qed.

(** A rule of the Lexical Fact Layer answers TRUE or FALSE with
    confidence 0.99 and no evidence. *)
Lemma checkKnownFacts_shape (processed raw : string) (kf : FCResult) :
  checkKnownFacts processed raw = Some kf ->
  (verdict kf = "TRUE" \/ verdict kf = "FALSE")
  /\ confidence kf = Num 0.99 /\ evidence kf = []
  /\ (truthScore kf = 0.98 \/ truthScore kf = 0.02).
Proof.
  unfold checkKnownFacts. cbn [nationality_loop nationalityRules].
  unfold nationalityRule_step, vegetarian_rule, water_rule.
  case_tests; intros [= <-] || discriminate; cbn; auto.
Qed.

Lemma determineVerdict_values (score : Q) :
  determineVerdictFromTruthScore score = "FALSE"
  \/ determineVerdictFromTruthScore score = "TRUE"
  \/ determineVerdictFromTruthScore score = "NEEDS VERIFICATION".
Proof.
  unfold determineVerdictFromTruthScore.
  destruct (gt score 0.6); [auto|]. destruct (lt score 0.4); auto.
Qed.

(** The confidence of the fact checker is [NaN] or lies in [0.01, 0.99]. *)
Lemma checkClaim_confidence (w : World) (claim : string) :
  match confidence (value (checkClaim w claim)) with
  | Num c => 0.01 <= c <= 0.99
  | NaN => True
  end.
Proof.
  unfold checkClaim.
  destruct (checkKnownFacts (preprocessText w claim) claim) as [kf|] eqn:Hkf.
  - cbn [value ret fst]. apply checkKnownFacts_shape in Hkf as (_ & -> & _).
    split; discriminate.
  - rewrite value_bind. cbn [value ret fst confidence].
    destruct (analyzeSentiment w (preprocessText w claim)) as [s|].
    + rewrite FreeFactCheckerSpec.calculateConfidence_Num.
      apply FreeFactCheckerSpec.finiteConfidence_spec.
    + now rewrite FreeFactCheckerSpec.calculateConfidence_NaN.
Qed.

Lemma checkClaim_verdict (w : World) (claim : string) :
  falsy (verdict (value (checkClaim w claim))) = false.
Proof.
  unfold checkClaim.
  destruct (checkKnownFacts (preprocessText w claim) claim) as [kf|] eqn:Hkf.
  - cbn [value ret fst]. apply checkKnownFacts_shape in Hkf as ([-> | ->] & _); reflexivity.
  - rewrite value_bind. cbn [value ret fst verdict].
    destruct (determineVerdict_values
                (ta_truthScore (computeTruthScore claim (value (searchEvidence w claim)))))
      as [-> | [-> | ->]]; reflexivity.
Qed.

(** On the fact checker's results the default of [fc.verdict || ...] is
    never taken, and the default of [fc.confidence || 0.5] is taken exactly
    when the confidence is [NaN]. *)
Lemma fc_defaults (w : World) (claim : string) :
  let fc := value (checkClaim w claim) in
  fcVerdictOf fc = verdict fc
  /\ fcConfidenceOf fc = numberOr 0.5 (confidence fc)
  /\ 0.01 <= fcConfidenceOf fc <= 0.99.
Proof.
  cbv zeta. split.
  - unfold fcVerdictOf. now rewrite checkClaim_verdict.
  - unfold fcConfidenceOf, num_or, numberOr.
    pose proof (checkClaim_confidence w claim) as H.
    destruct (confidence (value (checkClaim w claim))) as [c|].
    + destruct (Qeq_bool c 0) eqn:E.
      * apply Qeq_bool_iff in E. exfalso. lra.
      * split; [reflexivity | exact H].
    + split; [reflexivity|]. split; discriminate.
Qed.

(** [isStrongFC] decides the strong-signal condition of the specification. *)
Lemma isStrongFC_spec (w : World) (claim : string) :
  let fc := value (checkClaim w claim) in
  isStrongFC fc = true <-> spec_strong (verdict fc) (confidence fc) (truthScore fc).
Proof.
  intros fc. subst fc. unfold isStrongFC, spec_strong, geq, leq.
  destruct (fc_defaults w claim) as (-> & -> & _).
  rewrite !orb_true_iff, andb_true_iff, orb_true_iff, !Qle_bool_iff, !String.eqb_eq.
  destruct (confidence (value (checkClaim w claim))) as [c|]; cbn [numberOr num_le]; [tauto|].
  assert (~ 0.80 <= 0.5) as Hn by (intros N; lra).
  tauto.
Qed.

(** *** Strong signal *)

(** Refutes an evaluated strong-signal condition whose three tests fail. *)
Ltac refute_strong :=
  let H := fresh "H" in
  let H' := fresh "H" in
  intros [[[H|H] H']|[H|H]]; try discriminate H; try exact H'; apply H || apply H'; reflexivity.

(** C2 as stated fails: for the claim "2 + 2 = 5", which has no word, the
    fact checker's confidence is [NaN]; one refuting page makes the truth
    score 1, so the signal is strong, and the final confidence is the
    default 0.5 of [fc.confidence || 0.5], not the fact checker's
    confidence. *)
Lemma strong_signal_default :
  let fc := value (checkClaim debunked "2 + 2 = 5") in
  confidence fc = NaN
  /\ truthScore fc == 1
  /\ spec_strong (verdict fc) (confidence fc) (truthScore fc)
  /\ finalDecision debunked fc 1 0.5 = ("FALSE", 0.5)
  /\ Num (snd (finalDecision debunked fc 1 0.5)) <> confidence fc
  /\ match value (analyze debunked (JString "2 + 2 = 5")) with
     | Sent (Json r) => final_verdict r = "FALSE" /\ final_confidence r = 0.5
     | _ => False
     end.
Proof.
  vm_compute. repeat split; try discriminate. right. left. discriminate.
Qed.

(** C2, amended.  Whenever the strong-signal condition holds (the
    evidence-based verdict is TRUE or FALSE with confidence at least 0.80,
    or the truth score is at least 0.90, or at most 0.10), the final verdict
    is the fact checker's verdict and the final confidence is its
    confidence when that is a number, and the default 0.5 when it is [NaN],
    for every cross-source agreement and every source credibility. *)
Theorem strong_signal_final (w : World) (claim : string)
                            (crossSourceAgreement sourceCredibilityScore : Q) :
  let fc := value (checkClaim w claim) in
  let final := finalDecision w fc crossSourceAgreement sourceCredibilityScore in
  spec_strong (verdict fc) (confidence fc) (truthScore fc) ->
  fst final = verdict fc
  /\ (forall c, confidence fc = Num c -> snd final = c)
  /\ (confidence fc = NaN -> snd final = 0.5).
Proof.
  intros fc final Hstrong. subst final fc. apply isStrongFC_spec in Hstrong.
  unfold finalDecision. rewrite Hstrong. cbn [fst snd].
  destruct (fc_defaults w claim) as (-> & -> & _).
  split; [reflexivity|]. split.
  - now intros c ->.
  - now intros ->.
Qed.

Lemma strong_signal_final_witness :
  spec_strong (verdict (value (checkClaim offline "Water is wet")))
              (confidence (value (checkClaim offline "Water is wet")))
              (truthScore (value (checkClaim offline "Water is wet")))
  /\ fst (finalDecision offline (value (checkClaim offline "Water is wet")) 0.5 0.25) = "TRUE"
  /\ snd (finalDecision offline (value (checkClaim offline "Water is wet")) 0.5 0.25) = 0.99.
Proof.
  assert (spec_strong (verdict (value (checkClaim offline "Water is wet")))
                      (confidence (value (checkClaim offline "Water is wet")))
                      (truthScore (value (checkClaim offline "Water is wet")))) as Hs.
  { left. split; [now left | discriminate]. }
  split; [exact Hs|].
  destruct (strong_signal_final offline "Water is wet" 0.5 0.25 Hs) as (Hv & Hc & _).
  split; [exact Hv|]. apply Hc. reflexivity.
Defined.

(** *** Weak signal *)

Lemma toFixed_compat (tieUp : bool) (d : nat) (x y : Q) :
  x == y -> toFixed tieUp d x == toFixed tieUp d y.
Proof.
  intros E. unfold toFixed. cbv zeta.
  set (p := inject_Z (10 ^ Z.of_nat d)).
  assert (Qfloor (Qabs x * p) = Qfloor (Qabs y * p)) as -> by (now rewrite E).
  set (n := Qfloor (Qabs y * p)).
  assert (Qeq_bool (Qabs x * p - inject_Z n) (1 # 2)
          = Qeq_bool (Qabs y * p - inject_Z n) (1 # 2)) as -> by (now rewrite E).
  assert (Qle_bool (Qabs x * p - inject_Z n) (1 # 2)
          = Qle_bool (Qabs y * p - inject_Z n) (1 # 2)) as -> by (now rewrite E).
  assert (Qle_bool 0 x = Qle_bool 0 y) as -> by (now rewrite E).
  reflexivity.
Qed.

(** Rounding to two decimals gives a whole number of hundredths and moves
    a number by at most 0.005, whatever the direction at a tie. *)
Lemma toFixed2_error (tieUp : bool) (x : Q) :
  exists n : Z,
    toFixed tieUp 2 x == inject_Z n / 100
    /\ - (1 # 200) <= inject_Z n / 100 - x <= 1 # 200.
Proof.
  unfold toFixed. change (inject_Z (10 ^ Z.of_nat 2)) with 100. cbv zeta.
  pose proof (Qfloor_le (Qabs x * 100)) as Hlo.
  pose proof (Qlt_floor (Qabs x * 100)) as Hhi.
  rewrite inject_Z_plus in Hhi. change (inject_Z 1) with 1 in Hhi.
  set (n := Qfloor (Qabs x * 100)) in *.
  set (frac := Qabs x * 100 - inject_Z n).
  assert (exists m : Z,
             (if Qeq_bool frac (1 # 2) then if tieUp then (n + 1)%Z else n
              else if Qle_bool frac (1 # 2) then n else (n + 1)%Z) = m
             /\ - (1 # 2) <= inject_Z m - Qabs x * 100 <= 1 # 2) as (m & -> & Hm).
  { destruct (Qeq_bool frac (1 # 2)) eqn:Et.
    - apply Qeq_bool_iff in Et. unfold frac in Et.
      destruct tieUp; eexists; (split; [reflexivity|]);
        rewrite ?inject_Z_plus; change (inject_Z 1) with 1; lra.
    - destruct (Qle_bool frac (1 # 2)) eqn:El.
      + apply Qle_bool_iff in El. unfold frac in El.
        eexists; (split; [reflexivity|]); lra.
      + assert (~ frac <= 1 # 2) as Hn.
        { intros N. apply Qle_bool_iff in N. congruence. }
        unfold frac in Hn. eexists; (split; [reflexivity|]).
        rewrite inject_Z_plus. change (inject_Z 1) with 1. lra. }
  destruct (Qle_bool 0 x) eqn:Hs.
  - apply Qle_bool_iff in Hs. rewrite (Qabs_pos x Hs) in Hm.
    exists m. split; [reflexivity|].
    unfold Qdiv. change (/ 100) with (1 # 100). lra.
  - assert (x <= 0) as Hneg.
    { apply Qnot_lt_le. intros N. apply Qlt_le_weak, Qle_bool_iff in N. congruence. }
    rewrite (Qabs_neg x Hneg) in Hm.
    exists (- m)%Z. rewrite inject_Z_opp. split.
    + unfold Qdiv. change (/ 100) with (1 # 100). lra.
    + unfold Qdiv. change (/ 100) with (1 # 100). lra.
Qed.

(** Clamping does not move two numbers apart. *)
Lemma clamp_close (a b e : Q) :
  - e <= a - b <= e ->
  - e <= Math_max 0.01 (Math_min 0.99 a) - Math_max 0.01 (Math_min 0.99 b) <= e.
Proof.
  intros H. unfold Math_max, Math_min.
  destruct (Q.min_spec 0.99 a) as [[? Ea]|[? Ea]],
           (Q.min_spec 0.99 b) as [[? Eb]|[? Eb]],
           (Q.max_spec 0.01 (Qmin 0.99 a)) as [[? Fa]|[? Fa]],
           (Q.max_spec 0.01 (Qmin 0.99 b)) as [[? Fb]|[? Fb]];
    rewrite Fa, Fb; lra.
Qed.

(** C3 as stated fails.  For one encyclopedia page without cue the average
    is 0.5625 and the handler answers 0.56: the average is rounded before
    it is clamped.  For the claim "2 + 2 = 4", which has no word, the
    calibrator's confidence is [NaN] and the handler averages with the
    default 0.5: it answers 0.6. *)
Lemma final_confidence_rounded :
  match value (analyze oneHit (JString "The moon orbits the earth")) with
  | Sent (Json r) =>
      let fc := value (checkClaim oneHit "The moon orbits the earth") in
      ~ spec_strong (verdict fc) (confidence fc) (truthScore fc)
      /\ (exists c, confidence fc = Num c /\ c == 0.7
                    /\ spec_final_confidence c (truthScore fc) 0.5 0.85 == 0.5625
                    /\ ~ final_confidence r == spec_final_confidence c (truthScore fc) 0.5 0.85)
      /\ cross_source_agreement r == 0.5
      /\ source_credibility_score r == 0.85
      /\ final_confidence r == 0.56
  | _ => False
  end
  /\ match value (analyze mixed (JString "2 + 2 = 4")) with
     | Sent (Json r) =>
         let fc := value (checkClaim mixed "2 + 2 = 4") in
         ~ spec_strong (verdict fc) (confidence fc) (truthScore fc)
         /\ confidence fc = NaN
         /\ truthScore fc == 0.75
         /\ cross_source_agreement r == 1
         /\ source_credibility_score r == 0.5
         /\ final_confidence r == 0.6
     | _ => False
     end.
Proof.
  split.
  - vm_compute. split; [refute_strong|]. split.
    + eexists. split; [reflexivity|]. repeat split; try discriminate.
    + repeat split.
  - vm_compute. split; [refute_strong|]. repeat split.
Qed.

(** C3, amended.  When the strong-signal condition does not hold, the
    final verdict is TRUE if [crossSourceAgreement] or [truthScore] is at
    least 0.70, otherwise FALSE if one of them is at most 0.30, otherwise
    NEEDS VERIFICATION; the final confidence is the average of the
    calibrator's confidence (the default 0.5 when that is [NaN]) and
    max(0.7 * max(|truthScore - 0.5| * 2, crossSourceAgreement), 0.5 *
    avgSourceCredibility), rounded by [toFixed(2)] to a whole number of
    hundredths at distance at most 0.005 and then clamped to [0.01, 0.99],
    so it is within 0.005 of the clamped average. *)
Theorem weak_signal_final (w : World) (claim : string)
                          (crossSourceAgreement sourceCredibilityScore : Q) :
  let fc := value (checkClaim w claim) in
  let final := finalDecision w fc crossSourceAgreement sourceCredibilityScore in
  let modelConfidence := numberOr 0.5 (confidence fc) in
  let average :=
    spec_average modelConfidence (truthScore fc) crossSourceAgreement sourceCredibilityScore in
  ~ spec_strong (verdict fc) (confidence fc) (truthScore fc) ->
  spec_weak_verdict crossSourceAgreement (truthScore fc) (fst final)
  /\ (exists (tieUp : bool) (n : Z),
         toFixed tieUp 2 average == inject_Z n / 100
         /\ - (1 # 200) <= inject_Z n / 100 - average <= 1 # 200
         /\ snd final == Qmax 0.01 (Qmin 0.99 (inject_Z n / 100)))
  /\ 0.01 <= snd final <= 0.99
  /\ - (1 # 200)
     <= snd final
        - spec_final_confidence modelConfidence (truthScore fc) crossSourceAgreement
                                sourceCredibilityScore
     <= 1 # 200.
Proof.
  intros fc final modelConfidence average Hweak. subst final average modelConfidence fc.
  rewrite <- isStrongFC_spec in Hweak. apply not_true_is_false in Hweak.
  unfold finalDecision. rewrite Hweak.
  destruct (fc_defaults w claim) as (_ & -> & _).
  set (fc := value (checkClaim w claim)). cbn [fst snd].
  set (calibrated := (Math_max _ _ + numberOr 0.5 (confidence fc)) / 2).
  set (average := spec_average (numberOr 0.5 (confidence fc)) (truthScore fc)
                               crossSourceAgreement sourceCredibilityScore).
  assert (calibrated == average) as Havg.
  { unfold calibrated, average, spec_average, Math_max, Math_abs. field. }
  destruct (toFixed2_error (tieRoundsUp w 2 calibrated) average) as (n & Hn & Herr).
  assert (toFixed (tieRoundsUp w 2 calibrated) 2 calibrated == inject_Z n / 100) as Hr
    by (now rewrite (toFixed_compat _ 2 _ _ Havg)).
  split; [|split; [|split]].
  - unfold spec_weak_verdict, geq, leq.
    destruct (Qle_bool 0.70 crossSourceAgreement || Qle_bool 0.70 (truthScore fc))%bool eqn:Ht.
    + left. split; [|reflexivity].
      apply orb_true_iff in Ht. now rewrite !Qle_bool_iff in Ht.
    + right.
      assert (~ (0.70 <= crossSourceAgreement \/ 0.70 <= truthScore fc)) as Hno.
      { rewrite <- !Qle_bool_iff, <- orb_true_iff, Ht. discriminate. }
      destruct (Qle_bool crossSourceAgreement 0.30 || Qle_bool (truthScore fc) 0.30)%bool eqn:Hf.
      * left. split; [exact Hno|]. split; [|reflexivity].
        apply orb_true_iff in Hf. now rewrite !Qle_bool_iff in Hf.
      * right. split; [exact Hno|]. split; [|reflexivity].
        rewrite <- !Qle_bool_iff, <- orb_true_iff, Hf. discriminate.
  - exists (tieRoundsUp w 2 calibrated), n. split; [exact Hn|]. split; [exact Herr|].
    unfold Math_max, Math_min. now rewrite Hr.
  - apply clamp_bounds. discriminate.
  - unfold spec_final_confidence. fold average.
    change (Qmax 0.01 (Qmin 0.99 ?x)) with (Math_max 0.01 (Math_min 0.99 x)).
    apply clamp_close. rewrite Hr. exact Herr.
Qed.

Lemma weak_signal_final_witness :
  ~ spec_strong (verdict (value (checkClaim oneHit "The moon orbits the earth")))
                (confidence (value (checkClaim oneHit "The moon orbits the earth")))
                (truthScore (value (checkClaim oneHit "The moon orbits the earth")))
  /\ spec_weak_verdict 0.5
       (truthScore (value (checkClaim oneHit "The moon orbits the earth")))
       (fst (finalDecision oneHit (value (checkClaim oneHit "The moon orbits the earth"))
                           0.5 0.85)).
Proof.
  assert (~ spec_strong (verdict (value (checkClaim oneHit "The moon orbits the earth")))
                        (confidence (value (checkClaim oneHit "The moon orbits the earth")))
                        (truthScore (value (checkClaim oneHit "The moon orbits the earth"))))
    as Hweak.
  { vm_compute. refute_strong. }
  split; [exact Hweak|].
  apply (weak_signal_final oneHit "The moon orbits the earth" 0.5 0.85). exact Hweak.
Defined.

End ReconcilerSpec.

(** ** Properties of the Lexical Fact Layer in the pipeline *)

Module FactLayerSpec.

Import JSFacts EffFacts ReconcilerSpec.
Local Open Scope Q_scope.



Lemma credibilitySum_ok (w : World) (evs : list Ev) (acc : Q) :
  exists q, credibilitySum w acc evs = Ok q.
Proof.
  revert acc. induction evs as [|ev rest IH]; intros acc; cbn [credibilitySum].
  - now exists acc.
  - rewrite FreeFactCheckerSpec.classifySourceQuality_unfold. cbn [rbind]. apply IH.
Qed.

Lemma sourceCredibilityScoreOf_ok (w : World) (evs : list Ev) :
  exists q, sourceCredibilityScoreOf w evs = Ok q.
Proof.
  unfold sourceCredibilityScoreOf. destruct (0 <? length evs)%nat; [|now eexists].
  destruct (credibilitySum_ok w evs 0) as [q ->]. now eexists.
Qed.




(** The scenarios of the specification. *)
Example modi_is_not_american :
  let r := value (checkClaim offline "Narendra Modi is American") in
  verdict r = "FALSE" /\ confidence r = Num 0.99
  /\ explanation r = "narendra modi is indian, not american.".
Proof. repeat split. Qed.

Example chicken_is_not_vegetarian :
  let r := value (checkClaim offline "Chicken is vegetarian") in
  verdict r = "FALSE" /\ confidence r = Num 0.99
  /\ explanation r = "chicken is not vegetarian.".
Proof. repeat split. Qed.

Example unmatched_without_evidence :
  let r := value (checkClaim offline "The moon orbits the earth") in
  verdict r = "NEEDS VERIFICATION" /\ truthScore r = 0.5
  /\ exists c, confidence r = Num c /\ c == 0.5.
Proof. split; [reflexivity|]. split; [reflexivity|]. eexists. split; reflexivity. Qed.




End FactLayerSpec.

(** * Further properties *)

(** ** The fact checker's verdict and confidence *)

Module CheckerFacts.

Import JSFacts EffFacts.
Local Open Scope Q_scope.

(** Replaces every [Qmin] and [Qmax] by a variable with its two cases. *)
Ltac name_minmax t spec :=
  let P := fresh "P" in
  let m := fresh "m" in
  pose proof spec as P; set (m := t) in *; clearbody m.

Ltac case_minmax :=
  repeat match goal with
         | |- context [Qmin ?a ?b] => name_minmax (Qmin a b) (Q.min_spec a b)
         | |- context [Qmax ?a ?b] => name_minmax (Qmax a b) (Q.max_spec a b)
         | H : context [Qmin ?a ?b] |- _ => name_minmax (Qmin a b) (Q.min_spec a b)
         | H : context [Qmax ?a ?b] |- _ => name_minmax (Qmax a b) (Q.max_spec a b)
         end;
  repeat match goal with
         | P : _ \/ _ |- _ => destruct P as [[? ?]|[? ?]]
         end.

Lemma finiteConfidence_monotone (s1 s2 : Q) (f1 f2 : list string) (e e' : list Evidence) :
  Qabs s1 <= Qabs s2 -> (length f1 <= length f2)%nat ->
  finiteConfidence s2 f2 e <= finiteConfidence s1 f1 e
  /\ finiteConfidence s1 f1 [] <= finiteConfidence s1 f1 e'.
Proof.
  intros Hs Hf. apply of_nat_le in Hf.
  unfold finiteConfidence. split.
  - destruct (0 <? length e)%nat; case_minmax; lra.
  - cbn [length]. change (0 <? 0)%nat with false. cbv iota.
    destruct (0 <? length e')%nat; case_minmax; lra.
Qed.

(** More sentiment or more fallacies never raise the confidence, and
    evidence never lowers it. *)
Theorem calculateConfidence_monotone (s1 s2 : Q) (f1 f2 : list string)
                                     (e e' : list Evidence) :
  Qabs s1 <= Qabs s2 -> (length f1 <= length f2)%nat ->
  num_le (calculateConfidence (Num s2) f2 e) (calculateConfidence (Num s1) f1 e)
  /\ num_le (calculateConfidence (Num s1) f1 []) (calculateConfidence (Num s1) f1 e').
Proof.
  intros Hs Hf. rewrite !FreeFactCheckerSpec.calculateConfidence_Num. cbn [num_le].
  now apply finiteConfidence_monotone.
Qed.

Lemma calculateConfidence_monotone_witness :
  Qabs 0 <= Qabs (-2) /\ (length (@nil string) <= length ["ad hominem"])%nat
  /\ num_le (calculateConfidence (Num (-2)) ["ad hominem"] [])
            (calculateConfidence (Num 0) [] []).
Proof.
  split; [discriminate|]. split; [cbn; lia|].
  apply (calculateConfidence_monotone 0 (-2) [] ["ad hominem"] [] []).
  - discriminate.
  - cbn; lia.
Defined.

Lemma finiteConfidence_cap (s : Q) (f : list string) (e : list Evidence) :
  finiteConfidence s f e <= 0.7 /\ (e = [] -> finiteConfidence s f e <= 0.5).
Proof.
  pose proof (Qabs_nonneg s) as Hs. pose proof (of_nat_nonneg (length f)) as Hf.
  unfold finiteConfidence. split.
  - destruct (0 <? length e)%nat; case_minmax; lra.
  - intros ->. cbn [length]. change (0 <? 0)%nat with false. cbv iota. case_minmax; lra.
Qed.

Lemma app_not_empty_r (a b : string) : b <> EmptyString -> a ++ b <> EmptyString.
Proof. destruct a; [trivial | discriminate]. Qed.

(** In every result of [checkClaim] the verdict is the one that
    [determineVerdictFromTruthScore] gives for the truth score, on the
    direct path (0.98 and 0.02) as on the evidence path. *)
Theorem verdict_follows_truthScore (w : World) (claim : string) :
  let fc := value (checkClaim w claim) in
  verdict fc = determineVerdictFromTruthScore (truthScore fc)
  /\ explanation fc <> EmptyString.
Proof.
  unfold checkClaim.
  destruct (checkKnownFacts (preprocessText w claim) claim) as [kf|] eqn:Hkf.
  - cbn [value ret fst]. revert Hkf.
    unfold checkKnownFacts. cbn [nationality_loop nationalityRules].
    unfold nationalityRule_step, vegetarian_rule, water_rule.
    case_tests; intros [= <-] || discriminate;
      (split; [vm_compute; reflexivity|]);
      cbn [explanation makeDirectVerdict];
      repeat (apply app_not_empty_r); discriminate.
  - rewrite value_bind. cbn [value ret fst verdict truthScore explanation].
    split; [reflexivity|]. unfold buildExplanation. case_tests; discriminate.
Qed.

(** The evidence path of [checkClaim]. *)
Lemma checkClaim_unmatched (w : World) (claim : string) :
  let fc := value (checkClaim w claim) in
  checkKnownFacts (preprocessText w claim) claim = None ->
  evidence fc = value (searchEvidence w claim)
  /\ confidence fc
     = calculateConfidence (analyzeSentiment w (preprocessText w claim))
                           (detectLogicalFallacies w (preprocessText w claim)) (evidence fc)
  /\ truthScore fc = ta_truthScore (computeTruthScore claim (evidence fc))
  /\ td_stats (truthDetails fc) = stats (computeTruthScore claim (evidence fc)).
Proof.
  intros fc Hnone. subst fc. unfold checkClaim. rewrite Hnone, value_bind.
  cbn [value ret fst confidence evidence truthScore truthDetails td_stats].
  repeat split.
Qed.

(** A claim that no rule of the fact layer matches gets a confidence that
    is [NaN] (exactly when its sentiment is [NaN]) or at most 0.7, and at
    most 0.5 without evidence; the confidence the handler uses,
    [fc.confidence || 0.5], is then at most 0.7, so for such a claim the
    strong-signal test succeeds exactly when the truth score is at least
    0.9 or at most 0.1. *)
Theorem unmatched_confidence_cap (w : World) (claim : string) :
  let fc := value (checkClaim w claim) in
  checkKnownFacts (preprocessText w claim) claim = None ->
  match confidence fc with
  | Num c => sentiment fc <> NaN /\ c <= 0.7 /\ (evidence fc = [] -> c <= 0.5)
  | NaN => sentiment fc = NaN
  end
  /\ fcConfidenceOf fc <= 0.7
  /\ (isStrongFC fc = true <-> 0.90 <= truthScore fc \/ truthScore fc <= 0.10).
Proof.
  intros fc Hnone.
  destruct (checkClaim_unmatched w claim Hnone) as (_ & Hc & _). fold fc in Hc.
  assert (sentiment fc = analyzeSentiment w (preprocessText w claim)) as Hs.
  { subst fc. unfold checkClaim. rewrite Hnone, value_bind. reflexivity. }
  rewrite <- Hs in Hc.
  destruct (ReconcilerSpec.fc_defaults w claim) as (_ & Hd & _). fold fc in Hd.
  assert (match confidence fc with
          | Num c => sentiment fc <> NaN /\ c <= 0.7 /\ (evidence fc = [] -> c <= 0.5)
          | NaN => sentiment fc = NaN
          end) as Hm.
  { rewrite Hc. destruct (sentiment fc) as [s|].
    - rewrite FreeFactCheckerSpec.calculateConfidence_Num.
      split; [discriminate | apply finiteConfidence_cap].
    - now rewrite FreeFactCheckerSpec.calculateConfidence_NaN. }
  assert (fcConfidenceOf fc <= 0.7) as H7.
  { rewrite Hd. destruct (confidence fc) as [c|]; cbn [numberOr]; [apply Hm | discriminate]. }
  split; [exact Hm|]. split; [exact H7|].
  unfold isStrongFC, geq, leq.
  rewrite !orb_true_iff, andb_true_iff, !Qle_bool_iff.
  split; [|tauto]. intros [[[_ H8]|H]|H]; [lra | tauto | tauto].
Qed.

Lemma unmatched_confidence_cap_witness :
  checkKnownFacts (preprocessText mixed "The Great Wall is visible from space")
                  "The Great Wall is visible from space" = None
  /\ fcConfidenceOf (value (checkClaim mixed "The Great Wall is visible from space")) <= 0.7.
Proof.
  split; [reflexivity|].
  apply (unmatched_confidence_cap mixed "The Great Wall is visible from space").
  reflexivity.
Defined.

(** *** The fact layer *)

Lemma toLowerChar_idem (c : ascii) : toLowerChar (toLowerChar c) = toLowerChar c.
Proof. destruct c as [[] [] [] [] [] [] [] []]; reflexivity. Qed.

Lemma toLowerCase_idem (s : string) : toLowerCase (toLowerCase s) = toLowerCase s.
Proof.
  induction s as [|c s IH]; [reflexivity|]. cbn [toLowerCase].
  now rewrite toLowerChar_idem, IH.
Qed.

(** The fact layer does not see letter case: the raw claim and its
    lower-case form get the same answer, and so do the processed text and
    its lower-case form. *)
Theorem checkKnownFacts_ignores_case (processed raw : string) :
  option_map answer_of (checkKnownFacts processed (toLowerCase raw))
  = option_map answer_of (checkKnownFacts processed raw)
  /\ checkKnownFacts (toLowerCase processed) raw = checkKnownFacts processed raw.
Proof.
  split.
  - unfold checkKnownFacts. cbn [nationality_loop nationalityRules].
    unfold nationalityRule_step, vegetarian_rule, water_rule.
    rewrite !toLowerCase_idem. case_tests; reflexivity.
  - unfold checkKnownFacts. now rewrite toLowerCase_idem.
Qed.

(** As soon as the claim names Narendra Modi and one of the four wrong
    nationalities, the answer is FALSE with confidence 0.99, whatever else
    the claim says (a negation, the right nationality, water, food). *)
Theorem wrong_nationality_wins (processed raw nat : string) :
  In nat ["american"; "german"; "british"; "french"] ->
  includes (toLowerCase raw) "narendra" = true ->
  includes (toLowerCase raw) "modi" = true ->
  includes (toLowerCase raw) nat = true ->
  exists kf, checkKnownFacts processed raw = Some kf
             /\ verdict kf = "FALSE" /\ confidence kf = Num 0.99.
Proof.
  intros Hin Hn Hm Hw. unfold checkKnownFacts. cbn [nationality_loop nationalityRules].
  unfold nationalityRule_step. rewrite Hn, Hm. cbn [andb wrong].
  destruct (find (fun wrong => includes (toLowerCase raw) wrong)
                 ["american"; "german"; "british"; "french"]) as [found|] eqn:Hf.
  - eexists. split; [reflexivity|]. split; reflexivity.
  - apply (List.find_none _ _ Hf) in Hin. congruence.
Qed.

Lemma wrong_nationality_wins_witness :
  exists kf, checkKnownFacts "narendra modi indian not american"
                             "Narendra Modi is Indian, not American" = Some kf
             /\ verdict kf = "FALSE" /\ confidence kf = Num 0.99.
Proof.
  apply (wrong_nationality_wins "narendra modi indian not american"
           "Narendra Modi is Indian, not American" "american").
  - now left.
  - reflexivity.
  - reflexivity.
  - reflexivity.
Defined.

(** *** The truth score *)

Lemma spec_counts_perm (l l' : list Evidence) :
  Permutation l l' -> spec_supports l = spec_supports l' /\ spec_refutes l = spec_refutes l'.
Proof.
  unfold spec_supports, spec_refutes.
  induction 1 as [|x l l' _ [IH1 IH2]|x y l|l l' l'' _ [IH1 IH2] _ [IH3 IH4]]; cbn [List.filter].
  - now split.
  - destruct (is_supporting _), (is_refuting _); cbn [length]; split; congruence.
  - destruct (is_supporting (evidence_text x)), (is_refuting (evidence_text x)),
             (is_supporting (evidence_text y)), (is_refuting (evidence_text y)); now split.
  - split; congruence.
Qed.

(** The truth analysis depends neither on the order of the evidence nor on
    the claim: it counts cues in the evidence texts only. *)
Theorem computeTruthScore_order (claim claim' : string) (evidence evidence' : list Evidence) :
  Permutation evidence evidence' ->
  computeTruthScore claim evidence = computeTruthScore claim' evidence'.
Proof.
  intros Hp. unfold computeTruthScore.
  rewrite (Permutation_length Hp), !FreeFactCheckerSpec.fold_truth_step.
  now destruct (spec_counts_perm _ _ Hp) as [-> ->].
Qed.

Lemma computeTruthScore_order_witness :
  computeTruthScore "The wall is visible" [confirmedItem; notTrueItem; silentItem]
  = computeTruthScore "" [silentItem; confirmedItem; notTrueItem].
Proof.
  apply (computeTruthScore_order "The wall is visible" EmptyString).
  apply Permutation_sym.
  apply (Permutation_cons_append [confirmedItem; notTrueItem] silentItem).
Defined.

End CheckerFacts.

(** ** The search of the fact checker *)

Module SearchFacts.

Import JSFacts EffFacts EvidenceSetSpec.

Lemma substring_length (n : nat) (s : string) : (String.length (substring 0 n s) <= n)%nat.
Proof.
  revert s. induction n as [|n IH]; intros [|c s]; cbn; try lia.
  specialize (IH s). lia.
Qed.

(** [truncate] keeps at most [n] characters, and all of a short string. *)
Lemma truncate_length (s : string) (n : nat) :
  (String.length (truncate s n) <= n)%nat
  /\ ((String.length s <= n)%nat -> truncate s n = s).
Proof.
  unfold truncate. destruct (falsy s) eqn:Hf.
  - apply falsy_spec in Hf. subst s. split; [cbn; lia | reflexivity].
  - destruct (n <? String.length s)%nat eqn:Hlt.
    + split; [apply substring_length|]. apply Nat.ltb_lt in Hlt. lia.
    + split; [|reflexivity]. apply Nat.ltb_ge in Hlt. exact Hlt.
Qed.

Section Search.

Context (w : World).

Lemma addWikiHit_fresh (st : SearchState) (item : WikiHit) :
  Forall no_fullText (snd st) -> Forall no_fullText (snd (addWikiHit w st item)).
Proof.
  destruct st as [seen results]. unfold addWikiHit. intros Hf.
  case_bool_decide; [exact Hf|].
  cbn [snd] in *. apply Forall_app. split; [exact Hf|]. now repeat constructor.
Qed.

Lemma addDDG_fresh (st : SearchState) (data : DDGAnswer) :
  Forall no_fullText (snd st) -> Forall no_fullText (snd (addDDG st data)).
Proof.
  destruct st as [seen results]. unfold addDDG.
  intros Hf. destruct (falsy (AbstractText data)); [exact Hf|].
  case_bool_decide; [exact Hf|].
  cbn [snd] in *. apply Forall_app. split; [exact Hf|]. now repeat constructor.
Qed.

Lemma afterQuery_fresh (q : string) (st : SearchState) :
  Forall no_fullText (snd st) -> Forall no_fullText (snd (afterQuery w q st)).
Proof.
  intros H. unfold afterQuery, ddgStep, wikiStep. rewrite !value_bind.
  assert (Forall no_fullText (snd (value (match wikiSearch w q with
                                    | Some search => ret (fold_left (addWikiHit w)
                                                                    (firstn 3 search) st)
                                    | None => ret st
                                    end)))) as Hw.
  { destruct (wikiSearch w q) as [search|]; cbn [value ret fst]; [|exact H].
    generalize (firstn 3 search). intros hits. revert st H.
    induction hits as [|h hits IH]; intros st' H'; cbn [fold_left]; [exact H'|].
    apply IH. now apply addWikiHit_fresh. }
  cbn [call value fst] in *.
  destruct (ddgInstant w q); cbn [value ret fst]; [now apply addDDG_fresh | exact Hw].
Qed.

Lemma searchLoop_fresh (queries : list string) (st : SearchState) :
  Forall no_fullText (snd st) -> Forall no_fullText (snd (value (searchLoop w queries st))).
Proof.
  revert st. induction queries as [|q rest IH]; intros st H; [exact H|].
  rewrite searchLoop_cons. cbn [value fst].
  pose proof (afterQuery_fresh q st H).
  destruct (20 <? length (snd (afterQuery w q st)))%nat; [assumption | now apply IH].
Qed.

Lemma fetchArticleText_bounded (u : string) :
  (String.length (value (fetchArticleText w u)) <= MAX_ARTICLE_CHARS)%nat.
Proof.
  unfold fetchArticleText. destruct (falsy u); [cbn; lia|].
  rewrite value_bind. cbn [value ret fst]. apply truncate_length.
Qed.

Lemma enrichItem_bounded (item : Evidence) :
  no_fullText item -> fullText_bounded (value (enrichItem w item)).
Proof.
  intros Hf. unfold enrichItem. rewrite value_bind. cbn [value ret fst].
  pose proof (fetchArticleText_bounded (url item)) as Hlen.
  destruct (falsy _) eqn:E.
  - unfold fullText_bounded. now rewrite Hf.
  - unfold fullText_bounded. cbn [set_fullText fullText]. split; [|exact Hlen].
    intros N. unfold value in *. rewrite N in E. discriminate E.
Qed.

Lemma enrichAll_bounded (items : list Evidence) :
  Forall no_fullText items -> Forall fullText_bounded (value (enrichAll w items)).
Proof.
  induction 1 as [|item rest Hi _ IH]; [constructor|].
  cbn [enrichAll]. rewrite !value_bind. cbn [value ret fst].
  constructor; [now apply enrichItem_bounded | exact IH].
Qed.

Lemma enrichAll_length (items : list Evidence) :
  length (value (enrichAll w items)) = length items.
Proof.
  rewrite <- (List.length_map url), enrichAll_urls. apply List.length_map.
Qed.

Lemma enrichAll_articles (items : list Evidence) :
  (length (List.filter is_article (trace (enrichAll w items))) <= length items)%nat.
Proof.
  induction items as [|item rest IH]; [cbn; lia|].
  cbn [enrichAll]. rewrite !trace_bind. cbn [trace ret snd].
  rewrite !List.filter_app, !List.length_app. cbn [List.filter length].
  assert (length (List.filter is_article (trace (enrichItem w item))) <= 1)%nat.
  { unfold enrichItem, fetchArticleText. destruct (falsy (url item)); cbn; lia. }
  cbn [length]. unfold trace in *. lia.
Qed.

Lemma fresh_bounded (items : list Evidence) :
  Forall no_fullText items -> Forall fullText_bounded items.
Proof.
  apply List.Forall_impl. intros e He. unfold fullText_bounded. now rewrite He.
Qed.

End Search.

(** [searchEvidence] asks for the text of at most five pages; only the
    first five items of its result can carry a page text, and a page text
    is never empty and never longer than 4000 characters. *)
Theorem searchEvidence_enrichment (w : World) (claim : string) :
  (length (List.filter is_article (trace (searchEvidence w claim))) <= 5)%nat
  /\ Forall fullText_bounded (value (searchEvidence w claim))
  /\ Forall (fun e => fullText e = None) (skipn 5 (value (searchEvidence w claim))).
Proof.
  pose proof (searchLoop_fresh w (generateSearchQueries claim) (∅, []) (List.Forall_nil _)) as Hfresh.
  unfold searchEvidence. rewrite !trace_bind, !value_bind.
  change (trace (ret ?x)) with (@nil Call). change (value (ret ?x)) with x.
  unfold value in *.
  set (results := snd (fst (searchLoop w (generateSearchQueries claim) (∅, [])))) in *.
  assert (Forall no_fullText (firstn 5 results)) as Hfirst.
  { rewrite <- (List.firstn_skipn 5 results) in Hfresh. now apply Forall_app in Hfresh. }
  assert (Forall no_fullText (skipn 5 results)) as Hrest.
  { rewrite <- (List.firstn_skipn 5 results) in Hfresh. now apply Forall_app in Hfresh. }
  split; [|split].
  - rewrite List.app_nil_r, List.filter_app, List.length_app.
    rewrite searchLoop_trace by (cbn; lia).
    pose proof (enrichAll_articles w (firstn 5 results)) as Ha.
    pose proof (List.length_firstn 5 results) as Hl.
    cbn [generateSearchQueries flat_map List.filter is_article app length]. lia.
  - apply Forall_app. split.
    + apply (enrichAll_bounded w _ Hfirst).
    + now apply fresh_bounded.
  - rewrite List.skipn_app.
    pose proof (enrichAll_length w (firstn 5 results)) as Hlen. unfold value in Hlen.
    pose proof (List.length_firstn 5 results) as Hl.
    apply Forall_app. split.
    + rewrite List.skipn_all2 by lia. constructor.
    + clear - Hrest. revert Hrest. generalize (skipn 5 results). intros l Hl.
      generalize (5 - length (fst (enrichAll w (firstn 5 results))))%nat. intros n.
      rewrite <- (List.firstn_skipn n l) in Hl. now apply Forall_app in Hl.
Qed.

End SearchFacts.

(** ** Queries, snippets and relevance *)

Module TextFacts.

Import JSFacts EffFacts EvidenceSetSpec.

Lemma app_inv_head (c a b : string) : c ++ a = c ++ b -> a = b.
Proof.
  induction c as [|x c IH]; [trivial|]. rewrite !app_cons. intros [= H]. auto.
Qed.

Lemma app_empty_r (c : string) : c ++ EmptyString = c.
Proof. induction c as [|x c IH]; [reflexivity|]. rewrite app_cons. now rewrite IH. Qed.

Lemma app_self (c a : string) : c = c ++ a -> a = EmptyString.
Proof.
  intros H. rewrite <- (app_empty_r c) in H at 1. apply app_inv_head in H. auto.
Qed.

(** Two query variants differ, and so do two requests of a search. *)
Ltac differ_query H :=
  exfalso;
  first [ apply app_inv_head in H; discriminate H
        | apply app_self in H; discriminate H
        | symmetry in H; apply app_self in H; discriminate H ].

Ltac differ H := first [ discriminate H | injection H as H; differ_query H ].

(** [searchEvidence] never sends the same search request twice: the six
    query variants of a claim are pairwise distinct. *)
Theorem searches_never_repeat (w : World) (claim : string) :
  List.NoDup (generateSearchQueries claim)
  /\ List.NoDup (List.filter is_retrieval (trace (searchEvidence w claim))).
Proof.
  split.
  - unfold generateSearchQueries.
    repeat (constructor;
            [cbn [In]; intros H; repeat (destruct H as [H|H]; [differ_query H|]); exact H|]).
    constructor.
  - unfold searchEvidence. rewrite !trace_bind. cbn [trace ret snd].
    rewrite !List.filter_app, enrichAll_trace, searchLoop_trace by (cbn; lia).
    cbn [generateSearchQueries flat_map List.filter is_retrieval app].
    repeat (constructor;
            [cbn [In]; intros H; repeat (destruct H as [H|H]; [differ H|]); exact H|]).
    constructor.
Qed.

(** *** Tags in snippets *)

Lemma includes_char (c d : ascii) (s : string) :
  includes (String c s) (String d EmptyString)
  = (Ascii.eqb d c || includes s (String d EmptyString))%bool.
Proof.
  change (includes (String c s) (String d EmptyString))
    with (if String.prefix (String d EmptyString) (String c s) then true
          else includes s (String d EmptyString)).
  cbn [String.prefix]. destruct (Ascii.ascii_dec d c) as [->|Hne].
  - rewrite Ascii.eqb_refl. now destruct s.
  - apply Ascii.eqb_neq in Hne. now rewrite Hne.
Qed.

Lemma strip_tags_no_gt (s : string) :
  includes s ">" = false -> strip_tags_from s false = s.
Proof.
  induction s as [|c s IH]; [reflexivity|].
  rewrite includes_char. intros H. apply orb_false_elim in H as [Hc Hs].
  cbn [strip_tags_from]. rewrite Hs, andb_false_r, IH; auto.
Qed.

Lemma strip_tags_from_idem (s : string) (intag : bool) :
  strip_tags_from (strip_tags_from s intag) false = strip_tags_from s intag.
Proof.
  revert intag. induction s as [|c s IH]; intros intag; [now destruct intag|].
  destruct intag; cbn [strip_tags_from].
  - destruct (Ascii.eqb c ">"); apply IH.
  - destruct (Ascii.eqb c "<") eqn:Hc; cbn [andb].
    + destruct (includes s ">") eqn:Hs; [apply IH|].
      rewrite (strip_tags_no_gt s Hs). cbn [strip_tags_from].
      now rewrite Hc, Hs, (strip_tags_no_gt s Hs).
    + cbn [strip_tags_from]. rewrite Hc. cbn [andb]. now rewrite IH.
Qed.

Lemma strip_tags_from_length (s : string) (intag : bool) :
  (String.length (strip_tags_from s intag) <= String.length s)%nat.
Proof.
  revert intag. induction s as [|c s IH]; intros intag; [now destruct intag|].
  destruct intag; cbn [strip_tags_from].
  - destruct (Ascii.eqb c ">"); cbn [String.length];
      [specialize (IH false) | specialize (IH true)]; lia.
  - destruct (Ascii.eqb c "<" && includes s ">")%bool; cbn [String.length];
      [specialize (IH true) | specialize (IH false)]; lia.
Qed.

(** Removing the tags of a snippet leaves no tag behind (a second pass
    changes nothing), never lengthens the text, and keeps a text without
    a closing bracket as it is. *)
Theorem strip_tags_clean (s : string) :
  strip_tags (strip_tags s) = strip_tags s
  /\ (String.length (strip_tags s) <= String.length s)%nat
  /\ (includes s ">" = false -> strip_tags s = s).
Proof.
  unfold strip_tags. split; [apply strip_tags_from_idem|].
  split; [apply strip_tags_from_length | apply strip_tags_no_gt].
Qed.

(** *** Relevance *)

Lemma split_space_from_cons (s cur : string) :
  exists x l, split_space_from s cur = x :: l.
Proof.
  revert cur. induction s as [|c s IH]; intros cur; cbn [split_space_from]; [eauto|].
  destruct (Ascii.eqb c " "); [eauto | apply IH].
Qed.

Lemma tokens_nonempty (s t : string) :
  (0 < size (list_to_set (split_space s) ∪ list_to_set (split_space t) : gset string))%nat.
Proof.
  destruct (split_space_from_cons s EmptyString) as (x & l & E).
  unfold split_space at 1. rewrite E.
  assert (size (list_to_set (x :: l) ∪ list_to_set (split_space t) : gset string) <> 0%nat);
    [|lia].
  intros Hz. apply size_empty_iff in Hz.
  apply (not_elem_of_empty (C := gset string) x). rewrite <- Hz.
  apply elem_of_union. left. apply elem_of_list_to_set. now left.
Qed.

Local Open Scope Q_scope.

(** The relevance of a text for a query is a fraction between 0 and 1, the
    same in both directions, and 1 for a text against itself; the union of
    the two token sets is never empty (the empty text has the empty token),
    so the value 0 of the other branch is never returned for that reason:
    two texts without words have relevance 1. *)
Theorem calculateRelevance_props (w : World) (query text : string) :
  0 <= calculateRelevance w query text <= 1
  /\ calculateRelevance w query text = calculateRelevance w text query
  /\ calculateRelevance w query query == 1
  /\ (preprocessText w query = EmptyString -> preprocessText w text = EmptyString ->
      calculateRelevance w query text == 1).
Proof.
  assert (forall a b : string,
             (0 <? size (list_to_set (split_space a) ∪ list_to_set (split_space b)
                         : gset string))%nat = true) as Hpos.
  { intros a b. apply Nat.ltb_lt, tokens_nonempty. }
  assert (forall X : gset string, (0 < size X)%nat -> of_nat (size X) / of_nat (size X) == 1)
    as Hone.
  { intros X HX. apply Qmult_inv_r. pose proof (of_nat_pos _ HX). lra. }
  split; [|split; [|split]].
  - unfold calculateRelevance. rewrite Hpos.
    apply ratio_bounds; [|apply tokens_nonempty].
    apply subseteq_size. intros x Hx. apply elem_of_filter in Hx as [_ Hx].
    apply elem_of_union. now left.
  - unfold calculateRelevance. rewrite !Hpos.
    set (qs := list_to_set (split_space (preprocessText w query)) : gset string).
    set (ts := list_to_set (split_space (preprocessText w text)) : gset string).
    assert (filter (fun x => x ∈ ts) qs = filter (fun x => x ∈ qs) ts) as ->
      by (apply set_eq; intros x; rewrite !elem_of_filter; tauto).
    now rewrite (union_comm_L qs ts).
  - unfold calculateRelevance. rewrite Hpos.
    set (qs := list_to_set (split_space (preprocessText w query)) : gset string).
    assert (filter (fun x => x ∈ qs) qs = qs) as ->
      by (apply set_eq; intros x; rewrite elem_of_filter; tauto).
    rewrite (union_idemp_L qs). apply Hone.
    pose proof (tokens_nonempty (preprocessText w query) (preprocessText w query)) as H.
    fold qs in H. now rewrite (union_idemp_L qs) in H.
  - intros Hq Ht. unfold calculateRelevance. rewrite Hq, Ht. reflexivity.
Qed.

Lemma calculateRelevance_props_witness :
  preprocessText offline "42?" = EmptyString /\ preprocessText offline "!" = EmptyString
  /\ calculateRelevance offline "42?" "!" == 1.
Proof.
  split; [reflexivity|]. split; [reflexivity|].
  apply (calculateRelevance_props offline "42?" "!"); reflexivity.
Defined.

End TextFacts.

(** ** The handler *)

Module HandlerFacts.

Import JSFacts EffFacts EvidenceSetSpec ReconcilerSpec CheckerFacts.
Local Open Scope Q_scope.

(** *** Source credibility *)

Lemma classifySourceQuality_range (w : World) (u : string) :
  exists c, classifySourceQuality w u = Ok c /\ 0.25 <= c <= 0.95.
Proof.
  rewrite FreeFactCheckerSpec.classifySourceQuality_unfold. eexists. split; [reflexivity|].
  destruct (falsy u); [split; discriminate|].
  destruct (FreeFactCheckerSpec.classifyHost_values
              (toLowerCase match parseURL w u with Some p => hostname p | None => u end))
    as [H|[H|[H|[H|H]]]]; rewrite H; split; discriminate.
Qed.

Lemma credibilitySum_range (w : World) (evs : list Ev) (acc : Q) :
  exists q, credibilitySum w acc evs = Ok q
            /\ acc + 0.25 * of_nat (length evs) <= q <= acc + 0.95 * of_nat (length evs).
Proof.
  revert acc. induction evs as [|ev rest IH]; intros acc.
  - exists acc. split; [reflexivity|]. change (of_nat (length (@nil Ev))) with 0. lra.
  - cbn [credibilitySum].
    destruct (classifySourceQuality_range w (ev_url ev)) as (c & -> & Hc).
    cbn [rbind]. destruct (IH (acc + c)) as (q & -> & Hq).
    exists q. split; [reflexivity|].
    assert (of_nat (length (ev :: rest)) == of_nat (length rest) + 1) as ->.
    { unfold of_nat. cbn [length]. rewrite Nat2Z.inj_succ, <- Z.add_1_r, inject_Z_plus.
      reflexivity. }
    lra.
Qed.

(** The average source credibility is always computed (no exception
    escapes) and lies between the lowest and the highest tier; it is 0.5
    when no evidence is left. *)
Theorem sourceCredibilityScore_range (w : World) (filteredEvidence : list Ev) :
  exists q, sourceCredibilityScoreOf w filteredEvidence = Ok q
            /\ 0.25 <= q <= 0.95
            /\ (filteredEvidence = [] -> q = 0.5).
Proof.
  unfold sourceCredibilityScoreOf. destruct filteredEvidence as [|ev rest].
  - exists 0.5. cbn. repeat split; discriminate.
  - change (0 <? length (ev :: rest))%nat with true. cbv iota.
    destruct (credibilitySum_range w (ev :: rest) 0) as (q & -> & Hlo & Hhi).
    cbn [rbind]. eexists. split; [reflexivity|].
    assert (0 < of_nat (length (ev :: rest))) as Hn by (apply of_nat_pos; cbn; lia).
    split; [|discriminate]. split.
    + apply Qle_shift_div_l; [exact Hn|]. lra.
    + apply Qle_shift_div_r; [exact Hn|]. lra.
Qed.

(** *** The two branches of the decision *)

Lemma computeTruthScore_unfold (claim : string) (evidence : list Evidence) :
  computeTruthScore claim evidence
  = {| ta_truthScore :=
         if (spec_supports evidence + spec_refutes evidence =? 0)%nat then 0.5
         else of_nat (spec_refutes evidence)
              / of_nat (spec_supports evidence + spec_refutes evidence);
       stats := {| supports := spec_supports evidence; refutes := spec_refutes evidence |} |}.
Proof.
  unfold computeTruthScore. destruct evidence as [|item rest]; [reflexivity|].
  cbn [length Nat.eqb]. rewrite FreeFactCheckerSpec.fold_truth_step. cbn [Nat.add].
  now destruct (_ =? 0)%nat.
Qed.

Lemma checkClaim_verdict_values (w : World) (claim : string) :
  let v := verdict (value (checkClaim w claim)) in
  v = "TRUE" \/ v = "FALSE" \/ v = "NEEDS VERIFICATION".
Proof.
  unfold checkClaim.
  destruct (checkKnownFacts (preprocessText w claim) claim) as [kf|] eqn:Hkf.
  - cbn [value ret fst]. apply checkKnownFacts_shape in Hkf as ([-> | ->] & _); auto.
  - rewrite value_bind. cbn [value ret fst verdict].
    destruct (determineVerdict_values
                (ta_truthScore (computeTruthScore claim (value (searchEvidence w claim)))))
      as [-> | [-> | ->]]; auto.
Qed.

Lemma known_fact_is_strong (w : World) (claim : string) (kf : FCResult) :
  checkKnownFacts (preprocessText w claim) claim = Some kf ->
  isStrongFC (value (checkClaim w claim)) = true.
Proof.
  intros Hkf. unfold checkClaim. rewrite Hkf. cbn [value ret fst].
  destruct (checkKnownFacts_shape _ _ _ Hkf) as (Hv & Hc & _).
  unfold isStrongFC, fcVerdictOf, fcConfidenceOf, num_or, geq. rewrite Hc.
  destruct Hv as [-> | ->]; reflexivity.
Qed.

(** When the strong-signal test fails, the handler never answers FALSE: it
    answers TRUE as soon as one item of evidence carries a cue of either
    kind (the cross-source agreement is then 1), and NEEDS VERIFICATION
    otherwise.  In particular a FALSE of the fact checker that is not strong
    is answered as TRUE. *)
Theorem weak_signal_never_false (w : World) (claim : string) (sourceCredibilityScore : Q) :
  let fc := value (checkClaim w claim) in
  let st := td_stats (truthDetails fc) in
  isStrongFC fc = false ->
  fst (finalDecision w fc (crossSourceAgreementOf st) sourceCredibilityScore)
  = (if (0 <? supports st + refutes st)%nat then "TRUE" else "NEEDS VERIFICATION")
  /\ crossSourceAgreementOf st == (if (0 <? supports st + refutes st)%nat then 1 else 0.5).
Proof.
  intros fc st Hweak. subst st.
  destruct (checkKnownFacts (preprocessText w claim) claim) as [kf|] eqn:Hkf.
  { pose proof (known_fact_is_strong w claim kf Hkf) as Hs. fold fc in Hs. congruence. }
  destruct (checkClaim_unmatched w claim Hkf) as (_ & _ & Hts & Hst).
  fold fc in Hts, Hst. unfold finalDecision. rewrite Hweak. cbn [fst].
  rewrite Hst, Hts, computeTruthScore_unfold. cbn [stats supports refutes ta_truthScore].
  unfold crossSourceAgreementOf. cbn [supports refutes]. rewrite Nat.add_0_r.
  set (n := (spec_supports (evidence fc) + spec_refutes (evidence fc))%nat).
  destruct (0 <? n)%nat eqn:Hn.
  - apply Nat.ltb_lt in Hn.
    assert (of_nat n / of_nat n == 1) as H1.
    { apply Qmult_inv_r. pose proof (of_nat_pos n Hn). lra. }
    split; [|exact H1].
    assert (geq (of_nat n / of_nat n) 0.70 = true) as ->; [|reflexivity].
    unfold geq. apply Qle_bool_iff. rewrite H1. discriminate.
  - apply Nat.ltb_ge in Hn. assert (n = 0)%nat as -> by lia.
    split; reflexivity.
Qed.

Lemma weak_signal_never_false_witness :
  isStrongFC (value (checkClaim mixed "The Great Wall is visible from space")) = false
  /\ verdict (value (checkClaim mixed "The Great Wall is visible from space")) = "FALSE"
  /\ fst (finalDecision mixed
            (value (checkClaim mixed "The Great Wall is visible from space"))
            (crossSourceAgreementOf
               (td_stats (truthDetails
                            (value (checkClaim mixed "The Great Wall is visible from space")))))
            0.7625)
     = "TRUE".
Proof.
  split; [reflexivity|]. split; [reflexivity|].
  apply (weak_signal_never_false mixed "The Great Wall is visible from space" 0.7625).
  reflexivity.
Defined.

(** *** The answer *)

Lemma finalDecision_range (w : World) (claim : string) (agreement credibility : Q) :
  let final := finalDecision w (value (checkClaim w claim)) agreement credibility in
  0.01 <= snd final <= 0.99
  /\ (fst final = "TRUE" \/ fst final = "FALSE" \/ fst final = "NEEDS VERIFICATION").
Proof.
  cbv zeta. unfold finalDecision.
  destruct (isStrongFC (value (checkClaim w claim))).
  - destruct (fc_defaults w claim) as (-> & _ & Hr). cbn [fst snd]. split.
    + exact Hr.
    + apply checkClaim_verdict_values.
  - cbn [fst snd]. split; [apply clamp_bounds; discriminate|].
    destruct (geq agreement 0.70 || geq _ 0.70)%bool; [auto|].
    destruct (leq agreement 0.30 || leq _ 0.30)%bool; auto.
Qed.

(** Only a query that is a string is answered with a JSON body. *)
Lemma analyze_json (w : World) (query : JSValue) (r : Response) :
  value (analyze w query) = Sent (Json r) ->
  exists s, query = JString s /\ value (respond w (trim s)) = Json r.
Proof.
  destruct query as [| |b|x|s| |]; unfold analyze, js_or, truthy;
    try discriminate.
  - destruct b; discriminate.
  - destruct (Qeq_bool x 0); discriminate.
  - intros H. exists s. split; [reflexivity|]. apply analyze_sent. exact H.
Qed.

(** What an answer of the handler is made of. *)
Lemma analyze_inv (w : World) (query : string) (r : Response) :
  value (respond w (trim query)) = Json r ->
  let claim := extractCanonicalClaim (parseUserInput w (trim query)) in
  let canonicalClaim := if falsy claim then trim query else claim in
  let fc := value (checkClaim w claim) in
  exists externalEvidence credibility,
    let filtered :=
      firstn 20 (List.filter
                   (fun e => isRelevantEvidence e (buildRelevanceKeywords canonicalClaim))
                   (mergeEvidence (map mapFcEvidence (evidence fc)) externalEvidence)) in
    trim query <> EmptyString
    /\ sourceCredibilityScoreOf w filtered = Ok credibility
    /\ resp_evidence r = filtered
    /\ final_verdict r
       = fst (finalDecision w fc (crossSourceAgreementOf (td_stats (truthDetails fc)))
                            credibility)
    /\ final_confidence r
       = snd (finalDecision w fc (crossSourceAgreementOf (td_stats (truthDetails fc)))
                            credibility)
    /\ reasoning r <> EmptyString.
Proof.
  unfold respond, analyzeBody, hbind, hret, liftIO, liftR, bind, value.
  destruct (falsy (trim query)) eqn:Hraw; [discriminate|].
  cbn [original parseUserInput].
  destruct (resolveQueryText w _) as [[resolved|e] t0]; [|discriminate].
  destruct (if (5 <? _)%nat then _ else _) as [externalEvidence t1].
  destruct (checkClaim w _) as [fc t2]. cbn [ret fst snd].
  destruct (sourceCredibilityScoreOf w _) as [cred|e] eqn:Hcred; [|discriminate].
  cbn [fst]. intros [= <-]. exists externalEvidence, cred.
  cbn [resp_evidence final_verdict final_confidence reasoning].
  split; [intros E; rewrite E in Hraw; discriminate Hraw|].
  split; [exact Hcred|]. split; [reflexivity|]. split; [reflexivity|].
  split; [reflexivity|].
  destruct (falsy (explanation fc)) eqn:Hx; [discriminate|].
  intros E. rewrite E in Hx. discriminate Hx.
Qed.

(** Every answer of the handler has a confidence between 0.01 and 0.99, one
    of the three verdicts TRUE, FALSE and NEEDS VERIFICATION (the default
    NEEDS_VERIFICATION is never sent) and a non-empty reasoning. *)
Theorem answer_ranges (w : World) (query : JSValue) (r : Response) :
  value (analyze w query) = Sent (Json r) ->
  0.01 <= final_confidence r <= 0.99
  /\ (final_verdict r = "TRUE" \/ final_verdict r = "FALSE"
      \/ final_verdict r = "NEEDS VERIFICATION")
  /\ reasoning r <> EmptyString.
Proof.
  intros Hr. apply analyze_json in Hr as (query' & -> & Hr).
  rename query' into query.
  destruct (analyze_inv w query r Hr) as (ext & cred & _ & _ & _ & -> & -> & Hx).
  destruct (finalDecision_range w (extractCanonicalClaim (parseUserInput w (trim query)))
              (crossSourceAgreementOf
                 (td_stats (truthDetails
                    (value (checkClaim w (extractCanonicalClaim
                                            (parseUserInput w (trim query))))))))
              cred) as [Hc Hv].
  auto.
Qed.

Lemma answer_ranges_witness :
  value (analyze oneHit (JString "The moon orbits the earth")) = Sent (Json moonAnswer)
  /\ 0.01 <= final_confidence moonAnswer <= 0.99.
Proof.
  assert (value (analyze oneHit (JString "The moon orbits the earth"))
          = Sent (Json moonAnswer)) as E
    by (vm_compute; reflexivity).
  split; [exact E|].
  apply (answer_ranges oneHit (JString "The moon orbits the earth") moonAnswer E).
Defined.



(** *** Rejections and requests *)

Lemma trimStart_blank (s : string) : blank s = true <-> trimStart s = EmptyString.
Proof.
  induction s as [|c s IH]; cbn [blank trimStart]; [tauto|].
  destruct (isWhitespace c); cbn [andb]; [exact IH|]. split; discriminate.
Qed.

Lemma trimEnd_empty (s : string) : trimEnd s = EmptyString -> blank s = true.
Proof.
  induction s as [|c s IH]; [reflexivity|]. cbn [trimEnd blank].
  destruct (isWhitespace c); cbn [andb]; [|discriminate].
  destruct (String.eqb_spec (trimEnd s) EmptyString) as [E|_]; [auto | discriminate].
Qed.

Lemma trimStart_fixed (s : string) : blank (trimStart s) = true -> trimStart s = EmptyString.
Proof.
  induction s as [|c s IH]; [reflexivity|]. cbn [trimStart].
  destruct (isWhitespace c) eqn:Hc; [exact IH|]. cbn [blank]. rewrite Hc. discriminate.
Qed.

Lemma trim_blank (s : string) : blank s = true <-> trim s = EmptyString.
Proof.
  unfold trim. split.
  - intros H. apply trimStart_blank in H. now rewrite H.
  - intros H. apply trimStart_blank, trimStart_fixed, trimEnd_empty, H.
Qed.

Lemma analyze_unfold (w : World) (query : string) :
  let claim := extractCanonicalClaim (parseUserInput w (trim query)) in
  let canonicalClaim := if falsy claim then trim query else claim in
  falsy (trim query) = false ->
  match value (resolveQueryText w canonicalClaim) with
  | Ok resolved =>
      (exists r, value (respond w (trim query)) = Json r)
      /\ trace (respond w (trim query))
         = (trace (resolveQueryText w canonicalClaim)
            ++ trace (if (5 <? String.length canonicalClaim)%nat
                      then gatherEvidence w canonicalClaim (snd resolved) else ret [])
            ++ trace (checkClaim w claim))%list
  | Throw e =>
      (exists m, value (respond w (trim query)) = Error 502 m)
      /\ trace (respond w (trim query)) = trace (resolveQueryText w canonicalClaim)
  end.
Proof.
  intros claim canonicalClaim Hraw.
  unfold respond, analyzeBody, hbind, hret, liftIO, liftR, bind, value, trace.
  rewrite Hraw. cbn [original parseUserInput]. fold claim. fold canonicalClaim.
  destruct (resolveQueryText w canonicalClaim) as [[resolved|e] t0]; cbn [fst snd ret].
  - destruct (if (5 <? _)%nat then _ else _) as [externalEvidence t1].
    destruct (checkClaim w claim) as [fc t2]. cbn [ret fst snd].
    match goal with
    | |- context [sourceCredibilityScoreOf w ?X] =>
        destruct (FactLayerSpec.sourceCredibilityScoreOf_ok w X) as [c ->]
    end.
    unfold ret. cbn [fst snd app]. split; [eauto|]. now rewrite !List.app_nil_r.
  - unfold ret. cbn [fst snd app]. split; [eauto|]. now rewrite !List.app_nil_r.
Qed.

Lemma resolveQueryText_cases (w : World) (input : string) :
  (isLikelyUrl w input = false
   /\ trace (resolveQueryText w input) = []
   /\ exists text, value (resolveQueryText w input)
                   = Ok (text, {| meta_source := "text"; meta_url := EmptyString |}))
  \/ (isLikelyUrl w input = true
      /\ trace (resolveQueryText w input) = [CFetchUrl input]
      /\ ((exists e, value (resolveQueryText w input) = Throw e)
          \/ exists text u, value (resolveQueryText w input)
                            = Ok (text, {| meta_source := "url"; meta_url := u |}))).
Proof.
  unfold resolveQueryText. destruct (isLikelyUrl w input).
  - right. split; [reflexivity|].
    unfold hbind, fetchUrlText, bind, call, throw, hret, ret, value, trace.
    destruct (fetchUrl w input) as [out|]; cbn [fst snd app].
    + destruct (falsy (fst out)); cbn [fst snd app]; split; eauto.
    + split; eauto.
  - left. split; [reflexivity|]. split; [reflexivity|]. eexists. reflexivity.
Qed.

Lemma respond_status (w : World) (query : string) :
  let claim := extractCanonicalClaim (parseUserInput w (trim query)) in
  let canonicalClaim := if falsy claim then trim query else claim in
  match value (respond w (trim query)) with
  | Error status _ =>
      (status = 400%nat /\ blank query = true /\ trace (respond w (trim query)) = [])
      \/ (status = 502%nat /\ blank query = false /\ isLikelyUrl w canonicalClaim = true
          /\ trace (respond w (trim query)) = [CFetchUrl canonicalClaim])
  | Json _ => blank query = false
  end.
Proof.
  intros claim canonicalClaim.
  destruct (falsy (trim query)) eqn:Hraw.
  - unfold respond. rewrite Hraw. cbn [value ret fst]. left.
    apply falsy_spec, trim_blank in Hraw. auto.
  - assert (blank query = false) as Hb.
    { destruct (blank query) eqn:Hb; [|reflexivity].
      apply trim_blank in Hb. rewrite Hb in Hraw. discriminate Hraw. }
    pose proof (analyze_unfold w query Hraw) as Hun. cbv zeta in Hun.
    fold claim in Hun. fold canonicalClaim in Hun.
    destruct (resolveQueryText_cases w canonicalClaim)
      as [(Hu & Ht & text & Hv)|(Hu & Ht & [[e Hv]|(text & u & Hv)])];
      rewrite Hv in Hun; destruct Hun as [[x Hx] Htr]; rewrite Hx; try exact Hb.
    right. rewrite Htr, Ht. auto.
Qed.

(** What becomes of a request.  A query that is a string (of ASCII
    characters) is rejected with status 400 exactly when it holds white
    space only, before any request; its only other failure is status 502,
    for a claim that is a URL whose page cannot be fetched or has no text,
    after that single fetch; every other string is answered.  A query that
    is absent, [null], [false] or [0] is rejected with status 400.  Any
    other query that is not a string (a non-zero number, [true], an array,
    an object) makes the first line of the handler throw outside its
    [try]: no response is sent, neither 400 nor 502, and no request. *)
Theorem analyze_status (w : World) (query : JSValue) :
  match query with
  | JString s =>
      isASCII s = true ->
      let claim := extractCanonicalClaim (parseUserInput w (trim s)) in
      let canonicalClaim := if falsy claim then trim s else claim in
      match value (analyze w query) with
      | Sent (Error status _) =>
          (status = 400%nat /\ blank s = true /\ trace (analyze w query) = [])
          \/ (status = 502%nat /\ blank s = false /\ isLikelyUrl w canonicalClaim = true
              /\ trace (analyze w query) = [CFetchUrl canonicalClaim])
      | Sent (Json _) => blank s = false
      | Uncaught _ => False
      end
  | _ =>
      trace (analyze w query) = []
      /\ if truthy query
         then exists e, value (analyze w query) = Uncaught e
         else exists m, value (analyze w query) = Sent (Error 400 m)
  end.
Proof.
  destruct query as [| |b|x|s| |]; try (split; [reflexivity | eexists; reflexivity]).
  - destruct b; (split; [reflexivity | eexists; reflexivity]).
  - unfold analyze, js_or, truthy. destruct (Qeq_bool x 0);
      (split; [reflexivity | eexists; reflexivity]).
  - intros _. cbv zeta. rewrite analyze_trace, analyze_string.
    pose proof (respond_status w s) as H. cbv zeta in H.
    unfold fmap, value in *. cbn [fst].
    destruct (fst (respond w (trim s))); exact H.
Qed.

Lemma analyze_status_witness :
  isASCII "   " = true
  /\ value (analyze offline (JString "   ")) = Sent (Error 400 "Query text is required.")
  /\ blank "   " = true.
Proof.
  split; [reflexivity|]. split; [reflexivity|].
  pose proof (analyze_status offline (JString "   ") eq_refl) as H.
  cbv zeta in H. destruct H as [(_ & H & _)|(N & _)]; [exact H | discriminate N].
Defined.

Lemma enrichAll_calls (w : World) (items : list Evidence) :
  (length (trace (enrichAll w items)) <= length items)%nat.
Proof.
  induction items as [|item rest IH]; [cbn; lia|].
  cbn [enrichAll]. rewrite !trace_bind. cbn [trace ret snd].
  rewrite !List.length_app. cbn [length].
  assert (length (trace (enrichItem w item)) <= 1)%nat.
  { unfold enrichItem, fetchArticleText. destruct (falsy (url item)); cbn; lia. }
  unfold trace in *. lia.
Qed.

Lemma checkClaim_calls (w : World) (claim : string) :
  (length (trace (checkClaim w claim)) <= 17)%nat.
Proof.
  unfold checkClaim. destruct (checkKnownFacts _ claim); [cbn; lia|].
  rewrite trace_bind. cbn [trace ret snd]. rewrite List.app_nil_r.
  unfold searchEvidence. rewrite !trace_bind. cbn [trace ret snd].
  rewrite List.app_nil_r, List.length_app, searchLoop_trace by (cbn; lia).
  pose proof (enrichAll_calls w (firstn 5 (snd (value (searchLoop w (generateSearchQueries claim)
                                                             (∅, [])))))) as He.
  pose proof (List.length_firstn 5 (snd (value (searchLoop w (generateSearchQueries claim)
                                                          (∅, []))))) as Hl.
  cbn [generateSearchQueries flat_map app length]. unfold trace in *. lia.
Qed.

Lemma gatherEvidence_calls_le (w : World) (q : string) (meta : Meta) :
  (length (trace (gatherEvidence w q meta)) <= 4)%nat.
Proof.
  unfold gatherEvidence.
  destruct (_ || _ || _)%bool; [cbn; lia|].
  destruct (200 <? String.length q)%nat; [cbn; lia|].
  rewrite !trace_bind. cbn [trace ret snd]. rewrite !List.length_app. cbn [length].
  assert (length (trace (fetchWikipediaEvidence w q)) <= 2)%nat.
  { unfold fetchWikipediaEvidence, bind, call, ret, trace.
    destruct (openSearch w q) as [[t u]|]; cbn [fst snd app length]; [|lia].
    destruct (falsy t || falsy u)%bool; cbn [snd app length]; [lia|].
    destruct (wikiSummary w t) as [[dt ex]|]; cbn [snd app length];
      [destruct (falsy ex)|]; cbn [snd app length]; lia. }
  assert (length (trace (fetchDuckDuckGoEvidence w q)) = 1)%nat.
  { unfold fetchDuckDuckGoEvidence. rewrite trace_bind. now destruct (ddgRelated w q). }
  assert (length (trace (if falsy (NEWSAPI_KEY w) then ret []
                         else fetchNewsApiEvidence w q)) <= 1)%nat.
  { destruct (falsy (NEWSAPI_KEY w)) eqn:Hk; [cbn; lia|].
    unfold fetchNewsApiEvidence. rewrite Hk.
    unfold bind, call. destruct (newsApi w q); cbn; lia. }
  unfold trace in *. lia.
Qed.

(** [gatherEvidence] returns at most five items and sends at most four
    requests; for an empty query, a URL, a page already resolved from a URL
    or a query of more than 200 characters it returns nothing and sends
    nothing; without an API key it never asks the news source. *)
Theorem gatherEvidence_bounds (w : World) (originalQuery : string) (meta : Meta) :
  let g := gatherEvidence w originalQuery meta in
  (length (value g) <= 5)%nat
  /\ (length (trace g) <= 4)%nat
  /\ (originalQuery = EmptyString \/ isLikelyUrl w originalQuery = true
      \/ meta_source meta = "url" \/ (200 < String.length originalQuery)%nat ->
      g = ([], []))
  /\ (NEWSAPI_KEY w = EmptyString -> ~ In (CNewsApi originalQuery) (trace g)).
Proof.
  cbv zeta. unfold gatherEvidence.
  destruct (falsy originalQuery || isLikelyUrl w originalQuery
            || String.eqb (meta_source meta) "url")%bool eqn:Hskip.
  { repeat split; cbn; auto; lia. }
  destruct (200 <? String.length originalQuery)%nat eqn:Hlong.
  { repeat split; cbn; auto; lia. }
  apply orb_false_elim in Hskip as [Hskip Hm]. apply orb_false_elim in Hskip as [Hq Hu].
  rewrite !value_bind, !trace_bind. cbn [value trace ret fst snd].
  assert (exists c, trace (fetchWikipediaEvidence w originalQuery) = COpenSearch originalQuery :: c
                    /\ (length c <= 1)%nat /\ ~ In (CNewsApi originalQuery) c) as (c & Hw & Hc & Hcn).
  { unfold fetchWikipediaEvidence, bind, call, ret, trace.
    destruct (openSearch w originalQuery) as [[t u]|]; cbn [fst snd app].
    - destruct (falsy t || falsy u)%bool; cbn [snd app].
      + exists []. cbn. auto.
      + destruct (wikiSummary w t) as [[dt ex]|]; cbn [snd app];
          [destruct (falsy ex)|]; cbn [snd app]; eexists; (split; [reflexivity|]);
          (split; [cbn; lia|]); intros [N|[]]; discriminate N.
    - exists []. cbn. auto. }
  assert (trace (fetchDuckDuckGoEvidence w originalQuery) = [CDDGRelated originalQuery]) as Hd.
  { unfold fetchDuckDuckGoEvidence. rewrite trace_bind.
    now destruct (ddgRelated w originalQuery). }
  unfold trace in *. rewrite Hw, Hd. split; [|split; [|split]].
  - rewrite List.length_firstn. lia.
  - rewrite !List.length_app. cbn [length].
    destruct (falsy (NEWSAPI_KEY w)) eqn:Hk; [cbn; lia|].
    unfold fetchNewsApiEvidence. rewrite Hk.
    unfold bind, call. destruct (newsApi w originalQuery); cbn; lia.
  - intros [E|[E|[E|E]]].
    + rewrite E in Hq. discriminate Hq.
    + congruence.
    + rewrite E in Hm. discriminate Hm.
    + apply Nat.ltb_lt in E. congruence.
  - intros Hk. rewrite Hk. cbn [falsy String.eqb ret snd]. rewrite List.app_nil_r.
    cbn [app]. intros [N|Hin]; [discriminate N|].
    apply in_app_or in Hin as [Hin|[N|[]]]; [contradiction | discriminate N].
Qed.

(** One call of the handler sends at most 21 requests: at most 4 for its
    own evidence, 12 searches and 5 page fetches of the fact checker, or
    one page fetch and the fact checker's 17 when the claim is a URL. *)
Theorem analyze_request_budget (w : World) (query : JSValue) :
  (length (trace (analyze w query)) <= 21)%nat.
Proof.
  destruct query as [| |b|x|query| |]; try (cbn; lia).
  { destruct b; cbn; lia. }
  { unfold analyze, js_or, truthy. destruct (Qeq_bool x 0); cbn; lia. }
  rewrite analyze_trace.
  destruct (falsy (trim query)) eqn:Hraw.
  { unfold respond. rewrite Hraw. cbn. lia. }
  pose proof (analyze_unfold w query Hraw) as Hun. cbv zeta in Hun.
  set (claim := extractCanonicalClaim (parseUserInput w (trim query))) in *.
  set (canonicalClaim := if falsy claim then trim query else claim) in *.
  pose proof (checkClaim_calls w claim) as Hcc.
  destruct (resolveQueryText_cases w canonicalClaim)
    as [(Hu & Ht & text & Hv)|(Hu & Ht & [[e Hv]|(text & u & Hv)])];
    rewrite Hv in Hun; destruct Hun as [_ Htr]; rewrite Htr, Ht.
  - rewrite !List.length_app. cbn [length snd].
    destruct (5 <? String.length canonicalClaim)%nat; [|cbn; lia].
    pose proof (gatherEvidence_calls_le w canonicalClaim
                  {| meta_source := "text"; meta_url := EmptyString |}).
    unfold trace in *. lia.
  - cbn. lia.
  - rewrite !List.length_app. cbn [length snd].
    assert (trace (if (5 <? String.length canonicalClaim)%nat
                   then gatherEvidence w canonicalClaim {| meta_source := "url"; meta_url := u |}
                   else ret []) = []) as ->.
    { destruct (5 <? _)%nat; [|reflexivity]. unfold gatherEvidence. rewrite Hu.
      now rewrite orb_true_r. }
    cbn [length]. lia.
Qed.

End HandlerFacts.

(** ** Merging, keywords and citations *)

Module MergeFacts.

Import JSFacts EffFacts EvidenceSetSpec HandlerFacts.

(** *** The first occurrence wins *)

Lemma find_app_first {A} (f : A -> bool) (l1 l2 : list A) :
  find f (l1 ++ l2)%list = match find f l1 with
                           | Some x => Some x
                           | None => find f l2
                           end.
Proof.
  induction l1 as [|x l1 IH]; [reflexivity|]. cbn [app find].
  destruct (f x); [reflexivity | exact IH].
Qed.

Lemma find_url_key (m : JSMap Ev) (u : string) :
  merge_inv m -> In u (map fst m) -> exists e, find_url u (map_values m) = Some e.
Proof.
  intros Hinv Hin. destruct (find_url u (map_values m)) as [e|] eqn:Hf; [eauto|].
  exfalso. apply in_map_iff in Hin as [[k v] [Hk Hkv]]. cbn in Hk. subst k.
  unfold find_url in Hf.
  assert (In v (map_values m)) as Hv by (apply in_map_iff; exists (u, v); auto).
  apply (List.find_none _ _ Hf) in Hv.
  apply (inv_key _ Hinv) in Hkv as [Hurl _]. rewrite Hurl, String.eqb_refl in Hv.
  discriminate Hv.
Qed.

Lemma mergeStep_find (m : JSMap Ev) (ev : Ev) (u : string) :
  merge_inv m -> u <> EmptyString ->
  find_url u (map_values (mergeStep m ev))
  = match find_url u (map_values m) with
    | Some e => Some e
    | None => if String.eqb (ev_url ev) u then Some ev else None
    end.
Proof.
  intros Hinv Hu. unfold mergeStep.
  destruct (falsy (ev_url ev)) eqn:Hf; cbn [negb andb].
  - apply falsy_spec in Hf. rewrite Hf.
    destruct (String.eqb_spec EmptyString u) as [E|_]; [congruence|].
    now destruct (find_url u (map_values m)).
  - destruct (map_has m (ev_url ev)) eqn:Hh; cbn [negb].
    + destruct (String.eqb_spec (ev_url ev) u) as [E|_].
      * apply map_has_In in Hh. rewrite E in Hh.
        destruct (find_url_key m u Hinv Hh) as [e ->]. reflexivity.
      * now destruct (find_url u (map_values m)).
    + rewrite map_set_fresh by exact Hh. unfold map_values, find_url.
      rewrite List.map_app, find_app_first. reflexivity.
Qed.

Lemma merge_fold_find (l : list Ev) (m : JSMap Ev) (u : string) :
  merge_inv m -> u <> EmptyString ->
  find_url u (map_values (fold_left mergeStep l m))
  = match find_url u (map_values m) with
    | Some e => Some e
    | None => find_url u l
    end.
Proof.
  intros Hinv Hu. revert m Hinv. induction l as [|ev l IH]; intros m Hinv; cbn [fold_left].
  - now destruct (find_url u (map_values m)).
  - rewrite IH by now apply mergeStep_inv. rewrite mergeStep_find by assumption.
    destruct (find_url u (map_values m)); [reflexivity|].
    unfold find_url at 2. cbn [find]. now destruct (String.eqb (ev_url ev) u).
Qed.

(** For every non-empty URL the merge keeps the first item that carries it,
    in the order of the first set followed by the second: an item of the
    fact checker is never replaced by an item the handler gathered. *)
Theorem mergeEvidence_first_wins (a b : list Ev) (u : string) :
  u <> EmptyString ->
  find_url u (mergeEvidence a b) = find_url u (a ++ b)
  /\ (forall e, find_url u a = Some e -> find_url u (mergeEvidence a b) = Some e).
Proof.
  intros Hu.
  assert (find_url u (mergeEvidence a b) = find_url u (a ++ b)) as E.
  { unfold mergeEvidence. now rewrite merge_fold_find by (auto using merge_inv_empty). }
  split; [exact E|]. intros e He. rewrite E. unfold find_url in *.
  now rewrite find_app_first, He.
Qed.

Lemma mergeEvidence_first_wins_witness :
  "https://en.wikipedia.org/wiki/Moon" <> EmptyString
  /\ find_url "https://en.wikipedia.org/wiki/Moon"
              (mergeEvidence [moonFromChecker] [moonFromOpenSearch])
     = Some moonFromChecker.
Proof.
  split; [discriminate|].
  apply (mergeEvidence_first_wins [moonFromChecker] [moonFromOpenSearch]
           "https://en.wikipedia.org/wiki/Moon"); [discriminate | reflexivity].
Defined.

(** *** Keywords *)

Lemma dedupe_from_spec (l : list string) (seen : gset string) :
  List.NoDup (dedupe_from seen l)
  /\ forall x, In x (dedupe_from seen l) <-> In x l /\ x ∉ seen.
Proof.
  revert seen. induction l as [|y l IH]; intros seen; cbn [dedupe_from].
  - split; [constructor|]. cbn. tauto.
  - case_bool_decide as Hy.
    + destruct (IH seen) as [Hnd Hin]. split; [exact Hnd|].
      intros x. rewrite Hin. cbn [In]. split; [tauto|].
      intros [[->|Hx] Hs]; [contradiction | tauto].
    + destruct (IH ({[y]} ∪ seen)) as [Hnd Hin]. split.
      * constructor; [|exact Hnd]. rewrite Hin. intros [_ Hs]. apply Hs.
        apply elem_of_union. left. now apply elem_of_singleton.
      * intros x. cbn [In]. rewrite Hin. split.
        -- intros [->|[Hx Hs]]; [tauto|]. split; [tauto|].
           intros Hn. apply Hs. apply elem_of_union. now right.
        -- intros [[->|Hx] Hs]; [tauto|].
           destruct (String.eqb_spec y x) as [->|Hne]; [tauto|]. right. split; [exact Hx|].
           intros Hn. apply elem_of_union in Hn as [Hn|Hn]; [|contradiction].
           apply elem_of_singleton in Hn. congruence.
Qed.

(** The relevance keywords of a claim are pairwise distinct and longer than
    three characters, and every word of the lower-cased claim that is
    longer than three characters is one of them. *)
Theorem buildRelevanceKeywords_props (claim : string) :
  let keywords := buildRelevanceKeywords claim in
  List.NoDup keywords
  /\ (forall k, In k keywords -> (3 < String.length k)%nat)
  /\ (forall t, In t (split_ws (toLowerCase claim)) -> (3 < String.length t)%nat ->
                In t keywords).
Proof.
  cbv zeta. unfold buildRelevanceKeywords, dedupe.
  set (words := List.filter (fun x => (3 <? String.length x)%nat)
                            (split_ws (toLowerCase claim))).
  set (c := if includes (toLowerCase claim) "modi" then _ else words).
  destruct (dedupe_from_spec c ∅) as [Hnd Hin].
  assert (forall t, In t words <-> In t (split_ws (toLowerCase claim))
                                   /\ (3 < String.length t)%nat) as Hw.
  { intros t. subst words. rewrite List.filter_In, Nat.ltb_lt. reflexivity. }
  split; [exact Hnd|]. split.
  - intros k Hk. apply Hin in Hk as [Hk _]. subst c.
    destruct (includes (toLowerCase claim) "modi").
    + apply in_app_or in Hk as [Hk|Hk]; [now apply Hw in Hk|].
      cbn [In] in Hk. repeat (destruct Hk as [<-|Hk]; [cbn; lia|]). destruct Hk.
    + now apply Hw in Hk.
  - intros t Ht Hlen. apply Hin. split; [|apply not_elem_of_empty].
    subst c. destruct (includes (toLowerCase claim) "modi").
    + apply in_or_app. left. now apply Hw.
    + now apply Hw.
Qed.

(** When no word of the claim is longer than three characters (and the
    claim does not mention "modi"), the answer carries no evidence at all,
    whatever was retrieved. *)
Theorem short_words_no_evidence (w : World) (query : string) (r : Response) :
  let claim := extractCanonicalClaim (parseUserInput w (trim query)) in
  let canonicalClaim := if falsy claim then trim query else claim in
  value (analyze w (JString query)) = Sent (Json r) ->
  Forall (fun t => (String.length t <= 3)%nat) (split_ws (toLowerCase canonicalClaim)) ->
  includes (toLowerCase canonicalClaim) "modi" = false ->
  buildRelevanceKeywords canonicalClaim = [] /\ resp_evidence r = [].
Proof.
  intros claim canonicalClaim Hr Hshort Hmodi.
  assert (buildRelevanceKeywords canonicalClaim = []) as Hk.
  { unfold buildRelevanceKeywords. rewrite Hmodi.
    assert (List.filter (fun x => (3 <? String.length x)%nat)
                        (split_ws (toLowerCase canonicalClaim)) = []) as ->; [|reflexivity].
    induction Hshort as [|t l Ht _ IH]; [reflexivity|]. cbn [List.filter].
    apply Nat.ltb_ge in Ht. now rewrite Ht. }
  split; [exact Hk|]. apply analyze_sent in Hr.
  destruct (analyze_inv w query r Hr) as (ext & cred & _ & _ & -> & _).
  fold claim. fold canonicalClaim. rewrite Hk.
  generalize (mergeEvidence (map mapFcEvidence (evidence (value (checkClaim w claim)))) ext).
  intros l. assert (List.filter (fun e => isRelevantEvidence e []) l = []) as ->.
  { induction l as [|e l IH]; [reflexivity|]. exact IH. }
  reflexivity.
Qed.

Lemma short_words_no_evidence_witness :
  value (analyze mixed (JString "Is ice wet?")) = Sent (Json shortAnswer)
  /\ evidence (value (checkClaim mixed "ice wet")) <> []
  /\ resp_evidence shortAnswer = [].
Proof.
  assert (value (analyze mixed (JString "Is ice wet?")) = Sent (Json shortAnswer)) as E
    by (vm_compute; reflexivity).
  split; [exact E|]. split; [vm_compute; discriminate|].
  apply (short_words_no_evidence mixed "Is ice wet?" shortAnswer E).
  - vm_compute. repeat constructor.
  - reflexivity.
Defined.

(** *** Citations *)

Lemma insertCitation_perm (c : Citation) (l : list Citation) :
  Permutation (insertCitation c l) (c :: l).
Proof.
  induction l as [|d l IH]; cbn [insertCitation]; [reflexivity|].
  destruct (Qle_bool _ _); [reflexivity|].
  rewrite IH. apply perm_swap.
Qed.

Lemma sortCitations_perm (l : list Citation) : Permutation (sortCitations l) l.
Proof.
  induction l as [|c l IH]; [reflexivity|]. cbn [sortCitations fold_right].
  rewrite insertCitation_perm. now constructor.
Qed.

Lemma insertCitation_sorted (c : Citation) (l : list Citation) :
  StronglySorted at_least_as_credible l ->
  StronglySorted at_least_as_credible (insertCitation c l).
Proof.
  induction 1 as [|d l Hs IH Hd]; cbn [insertCitation].
  - constructor; constructor.
  - destruct (Qle_bool (cit_credibility d) (cit_credibility c)) eqn:Hle.
    + apply Qle_bool_iff in Hle. constructor; [now constructor|].
      constructor; [exact Hle|].
      eapply List.Forall_impl; [|exact Hd]. intros x Hx.
      unfold at_least_as_credible in *. now apply Qle_trans with (cit_credibility d).
    + constructor; [exact IH|].
      apply (Permutation_Forall (Permutation_sym (insertCitation_perm c l))).
      constructor; [|exact Hd].
      unfold at_least_as_credible.
      destruct (Qlt_le_dec (cit_credibility d) (cit_credibility c)) as [Hlt|Hge]; [|exact Hge].
      apply Qlt_le_weak, Qle_bool_iff in Hlt. congruence.
Qed.

Lemma sortCitations_sorted (l : list Citation) :
  StronglySorted at_least_as_credible (sortCitations l).
Proof.
  induction l as [|c l IH]; [constructor|].
  cbn [sortCitations fold_right]. now apply insertCitation_sorted.
Qed.

Lemma mapCitations_ok (w : World) (evs : list Ev) :
  exists all, mapCitations w evs = Ok all
              /\ map cit_url all = map ev_url evs
              /\ Forall (fun c => classifySourceQuality w (cit_url c) = Ok (cit_credibility c))
                        all.
Proof.
  induction evs as [|x rest (all & Hall & Hurl & Hc)]; cbn [mapCitations].
  - exists []. repeat split. constructor.
  - destruct (classifySourceQuality_range w (ev_url x)) as (c & Hcx & _).
    rewrite Hcx, Hall. cbn [rbind]. eexists. split; [reflexivity|].
    cbn [map cit_url]. split; [now rewrite Hurl|].
    constructor; [exact Hcx | exact Hc].
Qed.

(** The citations are always computed: they are the first five of the
    evidence items put in order of decreasing source credibility (a
    rearrangement of all the items, each at least as credible as every
    later one), one citation per item, scored by [classifySourceQuality]. *)
Theorem citations_sorted (w : World) (filteredEvidence : list Ev) :
  exists all,
    mapCitations w filteredEvidence = Ok all
    /\ map cit_url all = map ev_url filteredEvidence
    /\ Forall (fun c => classifySourceQuality w (cit_url c) = Ok (cit_credibility c)) all
    /\ citationsOf w filteredEvidence = Ok (firstn 5 (sortCitations all))
    /\ Permutation (sortCitations all) all
    /\ StronglySorted at_least_as_credible (sortCitations all)
    /\ (length (firstn 5 (sortCitations all)) <= 5)%nat.
Proof.
  destruct (mapCitations_ok w filteredEvidence) as (all & Hall & Hurl & Hc).
  exists all. unfold citationsOf. rewrite Hall. cbn [rbind].
  repeat split; auto using sortCitations_perm, sortCitations_sorted.
  rewrite List.length_firstn. lia.
Qed.

(** *** Source type and credibility *)

Lemma news_sites_major (host : string) :
  existsb (includes host) ["bbc."; "reuters."; "guardian."; "nytimes."; "cnn."; "aljazeera."]
  = true ->
  existsb (includes host) majorNews = true.
Proof.
  rewrite !existsb_exists. intros (x & Hin & Hx). exists x. split; [|exact Hx].
  cbn [In] in Hin. unfold majorNews. cbn [In].
  repeat (destruct Hin as [<-|Hin]; [tauto|]). destruct Hin.
Qed.

(** The two classifiers of a URL agree: a source typed "encyclopedia" has
    credibility at least 0.85 and a source typed "news" at least 0.8; a
    string that does not parse as a URL is typed "web". *)
Theorem sourceType_credibility (w : World) (u : string) :
  u <> EmptyString ->
  (parseURL w u = None -> inferSourceType w u = "web")
  /\ (inferSourceType w u = "encyclopedia" ->
      exists q, classifySourceQuality w u = Ok q /\ (0.85 <= q)%Q)
  /\ (inferSourceType w u = "news" ->
      exists q, classifySourceQuality w u = Ok q /\ (0.8 <= q)%Q).
Proof.
  intros Hu. rewrite FreeFactCheckerSpec.classifySourceQuality_unfold.
  assert (falsy u = false) as ->.
  { destruct (falsy u) eqn:E; [|reflexivity]. apply falsy_spec in E. contradiction. }
  unfold inferSourceType, new_URL. destruct (parseURL w u) as [p|].
  2: { repeat split; intros; discriminate. }
  set (host := toLowerCase (hostname p)). unfold classifyHost.
  split; [discriminate|]. split.
  - destruct (includes host "wikipedia.org") eqn:Hw.
    + intros _. eexists. split; [reflexivity|].
      destruct (_ || _ || _)%bool; [discriminate|].
      destruct (existsb _ highQualityOrgs); discriminate.
    + destruct (_ || _)%bool; [discriminate|].
      destruct (existsb _ _); discriminate.
  - destruct (includes host "wikipedia.org") eqn:Hw; [discriminate|].
    destruct (endsWith host ".gov" || includes host ".gov.")%bool; [discriminate|].
    destruct (existsb (includes host)
                      ["bbc."; "reuters."; "guardian."; "nytimes."; "cnn."; "aljazeera."])
      eqn:Hn; [|discriminate].
    intros _. rewrite (news_sites_major host Hn).
    eexists. split; [reflexivity|].
    destruct (_ || _ || _)%bool; [discriminate|].
    destruct (existsb _ highQualityOrgs); discriminate.
Qed.

Lemma sourceType_credibility_witness :
  "https://www.bbc.co.uk/news" <> EmptyString
  /\ inferSourceType offline "https://www.bbc.co.uk/news" = "news"
  /\ exists q, classifySourceQuality offline "https://www.bbc.co.uk/news" = Ok q
               /\ (0.8 <= q)%Q.
Proof.
  split; [discriminate|]. split; [reflexivity|].
  apply (sourceType_credibility offline "https://www.bbc.co.uk/news");
    [discriminate | reflexivity].
Defined.

End MergeFacts.
